(** * NeoPixel ring animation engine (wyoming_satellite/neopixel_ring.py)

    A shallow embedding of the colour normalisation, the frame generators
    and the effect engine of [NeoPixelRing], followed by the properties
    the specification states about them.

    Python ints are [Z]; Python floats are IEEE 754 binary64 values,
    computed with the Standard Library's executable [SpecFloat] model
    (round to nearest, ties to even), so [/], [*] and [-] on floats round
    exactly as CPython does.  Exceptions are values of [exn]. *)

From Stdlib Require Import ZArith Lia Bool List.
From Stdlib Require Import Floats.SpecFloat.
From stdpp Require Import base list.
From Stdlib Require String Ascii.
Import ListNotations.
Import String.StringSyntax Ascii.AsciiSyntax.
Delimit Scope string_scope with string.
Delimit Scope char_scope with char.
Open Scope Z_scope.

(** ** Python exceptions and results *)

Inductive exn : Type :=
| ValueError
| TypeError
| ZeroDivisionError
| OverflowError
| IndexError.

Inductive result (A : Type) : Type :=
| Ok (a : A)
| Raise (e : exn).
Arguments Ok {A} a.
Arguments Raise {A} e.

Definition rbind {A B : Type} (r : result A) (k : A -> result B) : result B :=
  match r with
  | Ok a => k a
  | Raise e => Raise e
  end.

Notation "'let*' x ':=' r 'in' k" := (rbind r (fun x => k))
  (at level 10, x name, r at level 100, k at level 200).

(** ** Python floats: IEEE 754 binary64 *)

Module Float.

Definition prec : Z := 53.
Definition emax : Z := 1024.

Definition float : Type := spec_float.

(** The float nearest to the integer [z]; infinite when [z] is out of
    range. *)
Definition of_Z (z : Z) : float := binary_normalize prec emax z 0 false.

Definition zero : float := S754_zero false.
Definition one : float := Eval vm_compute in of_Z 1.
(** The literal [0.5], that is 1 * 2^-1. *)
Definition half : float := Eval vm_compute in binary_normalize prec emax 1 (-1) false.

Definition sub : float -> float -> float := SFsub prec emax.
Definition mul : float -> float -> float := SFmul prec emax.
Definition div : float -> float -> float := SFdiv prec emax.

Definition ltb : float -> float -> bool := SFltb.
Definition leb : float -> float -> bool := SFleb.
Definition eqb : float -> float -> bool := SFeqb.

(** A decimal literal [n / d] with small [n] and [d], such as [0.08]:
    both are exact floats and the division rounds correctly, so this is
    the float the literal denotes. *)
Definition lit (n d : Z) : float := div (of_Z n) (of_Z d).

(** [float(z)] for a Python int: [OverflowError] when [z] is too large. *)
Definition of_int (z : Z) : result float :=
  match of_Z z with
  | S754_infinity _ => Raise OverflowError
  | f => Ok f
  end.

(** [int(f)]: truncation toward zero; [ValueError] on NaN,
    [OverflowError] on an infinity. *)
Definition to_int (f : float) : result Z :=
  match f with
  | S754_zero _ => Ok 0
  | S754_finite s m e =>
      let a := if 0 <=? e then Z.shiftl (Zpos m) e else Z.shiftr (Zpos m) (- e) in
      Ok (if s then - a else a)
  | S754_infinity _ => Raise OverflowError
  | S754_nan => Raise ValueError
  end.

(** [x / y] on floats: a zero divisor raises. *)
Definition truediv (x y : float) : result float :=
  match y with
  | S754_zero _ => Raise ZeroDivisionError
  | _ => Ok (div x y)
  end.

(** [max(0.0, x)]: Python's [max] keeps its first argument unless a later
    one is strictly greater. *)
Definition max0 (x : float) : float := if ltb zero x then x else zero.

End Float.

Abbreviation float := Float.float.

(** ** Colours *)

Definition RGBColor : Type := Z * Z * Z.

Definition off_color : RGBColor := (0, 0, 0).

Record Palette : Type := mkPalette {
  primary : RGBColor;
  secondary : RGBColor
}.

(** [_int_to_rgb(value)]: Python's [>>] and [&] on unbounded ints are
    [Z.shiftr] and [Z.land] (two's complement for negative values). *)
Definition _int_to_rgb (value : Z) : RGBColor :=
  let red := Z.land (Z.shiftr value 16) 255 in
  let green := Z.land (Z.shiftr value 8) 255 in
  let blue := Z.land value 255 in
  (red, green, blue).

(** The items a colour sequence may hold, and what [int(item)] does. *)
Inductive item : Type :=
| IInt (z : Z)
| IFloat (f : float)
| INone.

Definition py_int (x : item) : result Z :=
  match x with
  | IInt z => Ok z
  | IFloat f => Float.to_int f
  | INone => Raise TypeError
  end.

(** The values handed to [_ensure_rgb]: an int (a [bool] is the int 0 or
    1), a tuple or list of items, or a value that is neither ([bytes] and
    [bytearray] are sequences that the function excludes by name).
    A [str] is outside this model. *)
Inductive colour_spec : Type :=
| CInt (v : Z)
| CSeq (items : list item)
| CBytes (b : list Z)
| CFloat (f : float)
| CNone.

(** [value[i]] on a tuple or list. *)
Definition getitem (items : list item) (i : nat) : result item :=
  match items !! i with
  | Some x => Ok x
  | None => Raise IndexError
  end.

Definition _ensure_rgb (value : colour_spec) : result RGBColor :=
  match value with
  | CSeq items =>
      if negb (Nat.eqb (length items) 3) then Raise ValueError
      else
        let* r := rbind (getitem items 0) py_int in
        let* g := rbind (getitem items 1) py_int in
        let* b := rbind (getitem items 2) py_int in
        Ok (r, g, b)
  | CInt v => Ok (_int_to_rgb v)
  | CBytes _ | CFloat _ | CNone => Raise TypeError
  end.

Definition channel_ok (c : Z) : Prop := 0 <= c <= 255.

Definition rgb_in_range (c : RGBColor) : Prop :=
  channel_ok c.1.1 /\ channel_ok c.1.2 /\ channel_ok c.2.

(** ** Integer helpers *)

(** [a % b]: Python's floor remainder is [Z.modulo]; a zero divisor raises. *)
Definition py_mod (a b : Z) : result Z :=
  if b =? 0 then Raise ZeroDivisionError else Ok (a mod b).

(** [range(n)]: empty when [n <= 0]. *)
Definition py_range (n : Z) : list Z := seqZ 0 n.

(** [[x] * n]: empty when [n <= 0]. *)
Definition py_repeat {A : Type} (x : A) (n : Z) : list A := replicate (Z.to_nat n) x.

(** [a / b] on two ints, for operands that [float] holds exactly or
    rounds without overflow (every pixel count a list can have). *)
Definition int_truediv (a b : Z) : result float :=
  if b =? 0 then Raise ZeroDivisionError
  else
    let* fa := Float.of_int a in
    let* fb := Float.of_int b in
    Float.truediv fa fb.

(** [for x in xs: ys.append(f(x))], stopping at the first exception. *)
Fixpoint collect {A B : Type} (f : A -> result B) (xs : list A) : result (list B) :=
  match xs with
  | [] => Ok []
  | x :: rest =>
      let* y := f x in
      let* ys := collect f rest in
      Ok (y :: ys)
  end.

(** ** The engine state *)

(** The frame generators an effect thread can hold: the three bound
    methods, which reach the palette through [self] on every call, and the
    closure made by [pulse], which holds the normalised colour. *)
Inductive FrameGen : Type :=
| WakeupFrame
| ThinkFrame
| SpinFrame
| PulseFrame (rgb : RGBColor).

(** Where the [runner] of an effect thread stands. [Blocked] is a thread
    held inside a call that does not return (the pixel bus, the lock). *)
Inductive PC : Type :=
| AtStart
| AtLoopTest
| AtWait
| AtFinalTest
| Exited
| Blocked.

Record Thread : Type := mkThread {
  frame_generator : FrameGen;
  interval : float;
  duration : option float;
  start : float;
  step : Z;
  pc : PC
}.

(** [self]. [_pixels] is the buffer of the NeoPixel object and [flushed]
    the frames its [show()] has pushed out, oldest first; [monotonic] is the
    reading of [time.monotonic()]. *)
Record NeoPixelRing : Type := mkRing {
  _pixels : list RGBColor;
  flushed : list (list RGBColor);
  _pixel_count : Z;
  _palette : Palette;
  _effect_thread : option Thread;
  _stop_event : bool;
  monotonic : float
}.

Definition set_pixels (px : list RGBColor) (self : NeoPixelRing) : NeoPixelRing :=
  mkRing px self.(flushed) self.(_pixel_count) self.(_palette)
         self.(_effect_thread) self.(_stop_event) self.(monotonic).

Definition show (self : NeoPixelRing) : NeoPixelRing :=
  mkRing self.(_pixels) (self.(flushed) ++ [self.(_pixels)]) self.(_pixel_count)
         self.(_palette) self.(_effect_thread) self.(_stop_event) self.(monotonic).

Definition set_palette (p : Palette) (self : NeoPixelRing) : NeoPixelRing :=
  mkRing self.(_pixels) self.(flushed) self.(_pixel_count) p
         self.(_effect_thread) self.(_stop_event) self.(monotonic).

Definition set_thread (t : option Thread) (self : NeoPixelRing) : NeoPixelRing :=
  mkRing self.(_pixels) self.(flushed) self.(_pixel_count) self.(_palette)
         t self.(_stop_event) self.(monotonic).

Definition set_stop_event (b : bool) (self : NeoPixelRing) : NeoPixelRing :=
  mkRing self.(_pixels) self.(flushed) self.(_pixel_count) self.(_palette)
         self.(_effect_thread) b self.(monotonic).

(** The clock moves to [t]. *)
Definition tick (t : float) (self : NeoPixelRing) : NeoPixelRing :=
  mkRing self.(_pixels) self.(flushed) self.(_pixel_count) self.(_palette)
         self.(_effect_thread) self.(_stop_event) t.

Definition set_pc (p : PC) (t : Thread) : Thread :=
  mkThread t.(frame_generator) t.(interval) t.(duration) t.(start) t.(step) p.

(** [NeoPixelRing(pixel_count=...)]: a zeroed buffer of [pixel_count]
    slots, the default palette, no effect. *)
Definition init (pixel_count : Z) (now : float) : NeoPixelRing :=
  mkRing (py_repeat off_color pixel_count) [] pixel_count
         (mkPalette (_int_to_rgb 0x0080FF) (_int_to_rgb 0x007A37))
         None false now.

(** ** Frame generators *)

Definition _scale_color (color : RGBColor) (factor : float) : result RGBColor :=
  let '(r, g, b) := color in
  let* r' := rbind (Float.of_int r) (fun x => Float.to_int (Float.mul x factor)) in
  let* g' := rbind (Float.of_int g) (fun x => Float.to_int (Float.mul x factor)) in
  let* b' := rbind (Float.of_int b) (fun x => Float.to_int (Float.mul x factor)) in
  Ok (r', g', b').

Definition _wakeup_frame (self : NeoPixelRing) (step : Z) : result (list RGBColor) :=
  let* progress := py_mod step (self.(_pixel_count) * 2) in
  let lit := Z.min progress self.(_pixel_count) in
  Ok (map (fun index => if index <? lit then self.(_palette).(primary) else (0, 0, 0))
          (py_range self.(_pixel_count))).

Definition _think_frame (self : NeoPixelRing) (step : Z) : result (list RGBColor) :=
  let* offset := py_mod step self.(_pixel_count) in
  collect
    (fun index =>
       let* distance := py_mod (index - offset) self.(_pixel_count) in
       let* half_count := int_truediv self.(_pixel_count) 2 in
       let* d := Float.of_int distance in
       let* ratio := Float.truediv d half_count in
       let fade := Float.max0 (Float.sub Float.one ratio) in
       _scale_color self.(_palette).(secondary) (Float.mul fade Float.half))
    (py_range self.(_pixel_count)).

Definition _spin_frame (self : NeoPixelRing) (step : Z) : result (list RGBColor) :=
  let* position := py_mod step self.(_pixel_count) in
  Ok (map (fun index => if index =? position then self.(_palette).(primary) else (0, 0, 0))
          (py_range self.(_pixel_count))).

(** The brightness [level] computed inside [_pulse_frame]; [cycle / 2] is
    the float 20.0, never zero, and every int involved is below 40, hence
    converted exactly. *)
Definition pulse_level (step : Z) : float :=
  let cycle := 40 in
  let phase := step mod cycle in
  let half_cycle := Float.div (Float.of_Z cycle) (Float.of_Z 2) in
  if Float.ltb (Float.of_Z phase) half_cycle
  then Float.div (Float.of_Z phase) half_cycle
  else Float.sub (Float.of_Z 1)
         (Float.div (Float.sub (Float.of_Z phase) half_cycle) half_cycle).

Definition _pulse_frame (self : NeoPixelRing) (step : Z) (color : RGBColor)
  : result (list RGBColor) :=
  let level := pulse_level step in
  let* scaled := _scale_color color level in
  Ok (py_repeat scaled self.(_pixel_count)).

Definition call_generator (g : FrameGen) (self : NeoPixelRing) (step : Z)
  : result (list RGBColor) :=
  match g with
  | WakeupFrame => _wakeup_frame self step
  | ThinkFrame => _think_frame self step
  | SpinFrame => _spin_frame self step
  | PulseFrame rgb => _pulse_frame self step rgb
  end.

(** ** Writing frames *)

(** The loop of [_apply_colors]: [enumerate] from [index], [break] at
    [_pixel_count], and [self._pixels[index] = color], which raises
    [IndexError] outside the buffer. The NeoPixel object belongs to a
    library outside the repository; its buffer holds bytes, so it also
    refuses a colour with a channel outside [[0, 255]]. That refusal is
    not modelled here: what is proved about the colours a call writes is
    stated for colours with channels in that range. *)
Fixpoint write_colors (count : Z) (index : nat) (colors pixels : list RGBColor)
  : list RGBColor * option exn :=
  match colors with
  | [] => (pixels, None)
  | color :: rest =>
      if count <=? Z.of_nat index then (pixels, None)
      else if (index <? length pixels)%nat
           then write_colors count (S index) rest (<[index := color]> pixels)
           else (pixels, Some IndexError)
  end.

Definition _apply_colors (self : NeoPixelRing) (colors : list RGBColor)
  : NeoPixelRing * option exn :=
  match write_colors self.(_pixel_count) 0 colors self.(_pixels) with
  | (px, None) => (show (set_pixels px self), None)
  | (px, Some e) => (set_pixels px self, Some e)
  end.

Definition _fill (self : NeoPixelRing) (color : RGBColor) : NeoPixelRing * option exn :=
  _apply_colors self (py_repeat color self.(_pixel_count)).

(** ** The effect thread *)

Definition elapsed (t : Thread) (now : float) : bool :=
  match t.(duration) with
  | Some d => Float.leb d (Float.sub now t.(start))
  | None => false
  end.

(** One move of [runner]: from one of its program points to the next.
    An exception that escapes [runner] ends the thread. A pass of the loop
    body (generate, write, flush, count, read the clock) is one move: the
    engine is looked at between passes, not inside one. *)
Definition thread_step (self : NeoPixelRing) : NeoPixelRing :=
  match self.(_effect_thread) with
  | None => self
  | Some t =>
      match t.(pc) with
      | AtStart =>
          set_thread
            (Some (mkThread t.(frame_generator) t.(interval) t.(duration)
                            self.(monotonic) 0 AtLoopTest)) self
      | AtLoopTest =>
          if self.(_stop_event) then set_thread (Some (set_pc AtFinalTest t)) self
          else
            match call_generator t.(frame_generator) self t.(step) with
            | Raise _ => set_thread (Some (set_pc Exited t)) self
            | Ok colors =>
                match _apply_colors self colors with
                | (self', Some _) => set_thread (Some (set_pc Exited t)) self'
                | (self', None) =>
                    let t' := mkThread t.(frame_generator) t.(interval) t.(duration)
                                       t.(start) (t.(step) + 1) AtWait in
                    if elapsed t self'.(monotonic)
                    then set_thread (Some (set_pc AtFinalTest t')) self'
                    else set_thread (Some t') self'
                end
            end
      | AtWait =>
          if self.(_stop_event) then set_thread (Some (set_pc AtFinalTest t)) self
          else set_thread (Some (set_pc AtLoopTest t)) self
      | AtFinalTest =>
          if negb self.(_stop_event)
          then set_thread (Some (set_pc Exited t))
                 (_apply_colors self (py_repeat (0, 0, 0) self.(_pixel_count))).1
          else set_thread (Some (set_pc Exited t)) self
      | Exited | Blocked => self
      end
  end.

(** How many moves take [runner] from a program point to its end once the
    stop event is set; none do for a blocked thread. *)
Definition moves_to_exit (p : PC) : option nat :=
  match p with
  | AtStart => Some 3%nat
  | AtLoopTest | AtWait => Some 2%nat
  | AtFinalTest => Some 1%nat
  | Exited => Some 0%nat
  | Blocked => None
  end.

(** [self._effect_thread.join()] as [_stop_effect] calls it, after
    [self._stop_event.set()] and with no timeout: the caller resumes when
    the thread has run to its end, and never ([None]) if it is blocked. *)
Definition join (self : NeoPixelRing) : option NeoPixelRing :=
  match self.(_effect_thread) with
  | None => Some self
  | Some t =>
      match moves_to_exit t.(pc) with
      | Some n => Some (Nat.iter n thread_step self)
      | None => None
      end
  end.

(** ** Public operations *)

(** What a call on the engine does: it returns, it raises and leaves the
    engine in some state, or it never returns. *)
Inductive outcome : Type :=
| Returns (self : NeoPixelRing)
| Raises (e : exn) (self : NeoPixelRing)
| Hangs.

Definition and_then (o : outcome) (k : NeoPixelRing -> outcome) : outcome :=
  match o with
  | Returns self => k self
  | Raises e self => Raises e self
  | Hangs => Hangs
  end.

Definition applied (r : NeoPixelRing * option exn) : outcome :=
  match r with
  | (self, None) => Returns self
  | (self, Some e) => Raises e self
  end.

Definition _stop_effect (self : NeoPixelRing) : outcome :=
  match self.(_effect_thread) with
  | None => Returns self
  | Some _ =>
      match join (set_stop_event true self) with
      | Some self' => Returns (set_stop_event false (set_thread None self'))
      | None => Hangs
      end
  end.

Definition _start_effect (self : NeoPixelRing) (g : FrameGen)
           (interval : float) (duration : option float) : outcome :=
  and_then (_stop_effect self) (fun self =>
    let self := set_stop_event false self in
    Returns (set_thread (Some (mkThread g interval duration Float.zero 0 AtStart)) self)).

Definition set_color_palette (self : NeoPixelRing) (primary secondary : colour_spec)
  : outcome :=
  match _ensure_rgb primary with
  | Raise e => Raises e self
  | Ok p =>
      match _ensure_rgb secondary with
      | Raise e => Raises e self
      | Ok q => Returns (set_palette (mkPalette p q) self)
      end
  end.

Definition wakeup (self : NeoPixelRing) (duration : option float) : outcome :=
  _start_effect self WakeupFrame (Float.lit 8 100) duration.

Definition think (self : NeoPixelRing) (duration : option float) : outcome :=
  _start_effect self ThinkFrame (Float.lit 12 100) duration.

Definition speak (self : NeoPixelRing) : outcome :=
  and_then (_stop_effect self) (fun self =>
    applied (_fill self self.(_palette).(primary))).

Definition spin (self : NeoPixelRing) (duration : option float) : outcome :=
  _start_effect self SpinFrame (Float.lit 6 100) duration.

Definition mono (self : NeoPixelRing) (color : colour_spec) : outcome :=
  and_then (_stop_effect self) (fun self =>
    match _ensure_rgb color with
    | Raise e => Raises e self
    | Ok rgb => applied (_fill self rgb)
    end).

Definition pulse (self : NeoPixelRing) (color : colour_spec) (duration : float)
  : outcome :=
  match _ensure_rgb color with
  | Raise e => Raises e self
  | Ok rgb => _start_effect self (PulseFrame rgb) (Float.lit 5 100) (Some duration)
  end.

Definition off (self : NeoPixelRing) : outcome :=
  and_then (_stop_effect self) (fun self => applied (_fill self (0, 0, 0))).

(** ** Environment moves and predicates on the engine *)

(** The effect thread, about to write a frame (the loop body or the final
    frame), enters [_apply_colors] and is held there: the lock or the
    pixel bus does not return. *)
Definition stall (self : NeoPixelRing) : NeoPixelRing :=
  match self.(_effect_thread) with
  | Some t =>
      match t.(pc) with
      | AtLoopTest | AtFinalTest => set_thread (Some (set_pc Blocked t)) self
      | _ => self
      end
  | None => self
  end.

(** The clock reaches [t], then the effect thread makes one move; [run]
    does so for each reading in turn. *)
Definition run (readings : list float) (self : NeoPixelRing) : NeoPixelRing :=
  fold_left (fun s t => thread_step (tick t s)) readings self.

(** The buffer has one slot per pixel, as [neopixel.NeoPixel(pin,
    pixel_count)] makes it. *)
Definition wf (self : NeoPixelRing) : Prop :=
  length self.(_pixels) = Z.to_nat self.(_pixel_count).

(** No effect thread is held in a call that does not return. *)
Definition responsive (self : NeoPixelRing) : Prop :=
  match self.(_effect_thread) with
  | Some t => t.(pc) <> Blocked
  | None => True
  end.

Definition zeroed (self : NeoPixelRing) : Prop :=
  self.(_pixels) = replicate (Z.to_nat self.(_pixel_count)) (0, 0, 0).

(** The program point of the effect thread, if there is one. *)
Definition thread_pc (self : NeoPixelRing) : option PC :=
  match self.(_effect_thread) with
  | Some t => Some t.(pc)
  | None => None
  end.

(** A colour specification that [_ensure_rgb] must refuse: a sequence
    whose length is not 3, or a value that is neither an int nor a
    sequence. *)
Definition invalid_spec (value : colour_spec) : Prop :=
  match value with
  | CInt _ => False
  | CSeq items => length items <> 3%nat
  | CBytes _ | CFloat _ | CNone => True
  end.

(** ** Histories of the engine *)

(** What can happen to an engine: a call of its public API from the
    owning thread, a move of the effect thread, the clock advancing, the
    effect thread getting stuck. *)
Inductive event : Type :=
| CallSetColorPalette (primary secondary : colour_spec)
| CallWakeup (duration : option float)
| CallThink (duration : option float)
| CallSpeak
| CallSpin (duration : option float)
| CallMono (color : colour_spec)
| CallPulse (color : colour_spec) (duration : float)
| CallOff
| ThreadMove
| ClockReads (t : float)
| ThreadStalls.

Definition perform (ev : event) (self : NeoPixelRing) : outcome :=
  match ev with
  | CallSetColorPalette p q => set_color_palette self p q
  | CallWakeup d => wakeup self d
  | CallThink d => think self d
  | CallSpeak => speak self
  | CallSpin d => spin self d
  | CallMono c => mono self c
  | CallPulse c d => pulse self c d
  | CallOff => off self
  | ThreadMove => Returns (thread_step self)
  | ClockReads t => Returns (tick t self)
  | ThreadStalls => Returns (stall self)
  end.

(** The engine after a history; a caller that catches an exception goes
    on with the engine as the failed call left it, and nothing follows a
    call that never returns. *)
Fixpoint after (history : list event) (self : NeoPixelRing) : option NeoPixelRing :=
  match history with
  | [] => Some self
  | ev :: rest =>
      match perform ev self with
      | Returns self' | Raises _ self' => after rest self'
      | Hangs => None
      end
  end.

(** What holds of the engine a call leaves behind. *)
Definition leaves (P : NeoPixelRing -> Prop) (o : outcome) : Prop :=
  match o with
  | Returns self | Raises _ self => P self
  | Hangs => True
  end.

(** Between two events the buffer has its [pixel_count] slots and the
    stop event is clear. *)
Definition steady (self : NeoPixelRing) : Prop :=
  wf self /\ self.(_stop_event) = false.

(** The phases in [[1, 19]] at which rounding separates [level(phase)]
    from [level(40 - phase)]. *)
Definition asymmetric_phase (p : Z) : bool :=
  (p <=? 4) || (p =? 6) || (p =? 9).

(** 2^-53, half the gap between 1.0 and the next float. *)
Definition rounding_unit : float :=
  Eval vm_compute in binary_normalize Float.prec Float.emax 1 (-53) false.

(** A ring of one pixel whose palette has been set to black. *)
Definition black_ring : NeoPixelRing :=
  set_palette (mkPalette (0, 0, 0) (0, 0, 0)) (init 1 Float.zero).

(** A four-pixel ring one frame into [wakeup()], its thread about to test
    the loop condition for step 1. *)
Definition waking_ring : NeoPixelRing :=
  match wakeup (init 4 Float.zero) None with
  | Returns self => run [Float.zero; Float.zero; Float.zero] self
  | _ => init 4 Float.zero
  end.

(** The same ring after [set_color_palette(0xFF0000, 0x00FF00)]. *)
Definition recoloured_ring : NeoPixelRing :=
  match set_color_palette waking_ring (CInt 0xFF0000) (CInt 0x00FF00) with
  | Returns self => self
  | _ => waking_ring
  end.

(** A twelve-pixel ring whose [think()] effect has shown two frames. *)
Definition thinking_ring : NeoPixelRing :=
  match think (init 12 Float.zero) None with
  | Returns self => run (replicate 4 Float.zero) self
  | _ => init 12 Float.zero
  end.

(** A four-pixel ring whose [spin()] thread is held in a call that does
    not return. *)
Definition stalled_ring : NeoPixelRing :=
  match spin (init 4 Float.zero) None with
  | Returns self => stall (run [Float.zero; Float.zero; Float.zero] self)
  | _ => init 4 Float.zero
  end.

(** A four-pixel ring whose [wakeup(duration=0.5)] thread is about to run
    the loop body for step 0 while the clock already reads 1.0. *)
Definition expiring_ring : NeoPixelRing :=
  match wakeup (init 4 Float.zero) (Some Float.half) with
  | Returns self => tick Float.one (run [Float.zero] self)
  | _ => init 4 Float.zero
  end.

(** Number of pixels of a frame that are not [(0, 0, 0)]. *)
Definition non_off (frame : list RGBColor) : nat :=
  length (filter (fun c : RGBColor => c <> off_color) frame).

(** ** Further notions for the properties of the engine *)

(** The number of steps after which a generator repeats. *)
Definition period (g : FrameGen) (pixel_count : Z) : Z :=
  match g with
  | WakeupFrame => 2 * pixel_count
  | ThinkFrame | SpinFrame => pixel_count
  | PulseFrame _ => 40
  end.


(** [int(c * factor)] for one channel, as [_scale_color] computes it. *)
Definition scale_channel (c : Z) (factor : float) : result Z :=
  rbind (Float.of_int c) (fun x => Float.to_int (Float.mul x factor)).

(** Channel by channel comparison of two colours. *)
Definition rgb_le (a b : RGBColor) : Prop :=
  a.1.1 <= b.1.1 /\ a.1.2 <= b.1.2 /\ a.2 <= b.2.

(** The forty brightness levels of a pulse cycle, phase 0 first. *)
Definition pulse_levels : list float :=
  Eval vm_compute in map pulse_level (seqZ 0 40).

(** What holds of the forty scaled values [vs] of channel value [c] at
    phase [p]: the value lies between 0 and [c], it is 0 at phase 0 and [c]
    at phase 20, and the next phase is no darker in the first half of the
    cycle and no brighter in the second. *)
Definition pulse_phase_ok (c : Z) (vs : list Z) (p : nat) : bool :=
  match vs !! p, vs !! (S p mod 40)%nat with
  | Some v, Some w =>
      (0 <=? v) && (v <=? c)
      && (if (p <? 20)%nat then v <=? w else w <=? v)
      && (if (p =? 0)%nat then v =? 0 else true)
      && (if (p =? 20)%nat then v =? c else true)
  | _, _ => false
  end.

Definition pulse_row_ok (c : Z) : bool :=
  match collect (scale_channel c) pulse_levels with
  | Ok vs => forallb (pulse_phase_ok c vs) (seq 0 40)
  | Raise _ => false
  end.

(** ** Kinds of events in a history *)

Definition is_palette_call (ev : event) : bool :=
  match ev with
  | CallSetColorPalette _ _ => true
  | _ => false
  end.

Definition is_stall (ev : event) : bool :=
  match ev with
  | ThreadStalls => true
  | _ => false
  end.

(** A call has come back, by return or by exception, and left an engine
    of which [P] holds. *)
Definition comes_back (P : NeoPixelRing -> Prop) (o : outcome) : Prop :=
  match o with
  | Returns self | Raises _ self => P self
  | Hangs => False
  end.

(** Steady, and with an effect thread that is not blocked. *)
Definition settled (self : NeoPixelRing) : Prop :=
  steady self /\ responsive self.

(** ** The event handler of the service (examples/neopixel_service.py) *)

(** The type strings of the event classes that [handle_event] tests for,
    in the order it tests them; the Wyoming library defines them, and
    [X.is_type(event.type)] is the comparison of [event.type] with the
    string of class [X]. *)
Record EventTypes : Type := mkEventTypes {
  detection_type : String.string;
  voice_started_type : String.string;
  voice_stopped_type : String.string;
  streaming_started_type : String.string;
  streaming_stopped_type : String.string;
  satellite_connected_type : String.string;
  played_type : String.string;
  satellite_disconnected_type : String.string
}.

Definition type_list (types : EventTypes) : list String.string :=
  [ types.(detection_type); types.(voice_started_type); types.(voice_stopped_type);
    types.(streaming_started_type); types.(streaming_stopped_type);
    types.(satellite_connected_type); types.(played_type);
    types.(satellite_disconnected_type) ].

(** [LEDsEventHandler.handle_event] on [self.ring]; whenever the call on
    the ring returns, the handler returns [True]. The calls take their
    default durations: 2.0 for [wakeup()], 1.5 for [spin()]. *)
Definition handle_event (types : EventTypes) (ring : NeoPixelRing)
           (event_type : String.string) : outcome :=
  if String.eqb event_type types.(detection_type)
  then wakeup ring (Some (Float.of_Z 2))
  else if String.eqb event_type types.(voice_started_type)
  then speak ring
  else if String.eqb event_type types.(voice_stopped_type)
  then spin ring (Some (Float.lit 3 2))
  else if String.eqb event_type types.(streaming_started_type)
  then speak ring
  else if String.eqb event_type types.(streaming_stopped_type)
  then off ring
  else if String.eqb event_type types.(satellite_connected_type)
  then think ring (Some (Float.of_Z 2))
  else if String.eqb event_type types.(played_type)
  then off ring
  else if String.eqb event_type types.(satellite_disconnected_type)
  then mono ring (CInt 0xFF0000)
  else Returns ring.

(** No string of the list occurs twice in it: each one differs from those
    before it. *)
Fixpoint distinct (l : list String.string) : bool :=
  match l with
  | [] => true
  | x :: rest => forallb (fun y => negb (String.eqb y x)) rest && distinct rest
  end.

(** The type strings as the Wyoming library has them. *)
Definition wyoming_types : EventTypes :=
  mkEventTypes "detection"%string "voice-started"%string "voice-stopped"%string
               "streaming-started"%string "streaming-stopped"%string
               "satellite-connected"%string "played"%string
               "satellite-disconnected"%string.

(** The ring part of [main]: the ring is built, given its palette from two
    parsed colours, pulses its primary colour and is turned off;
    [meanwhile] is what the effect thread and the clock do during
    [await asyncio.sleep(1.0)]. *)
Definition boot_sequence (pixel_count : Z) (now : float) (primary secondary : Z)
           (meanwhile : list event) : option NeoPixelRing :=
  after (CallSetColorPalette (CInt primary) (CInt secondary)
           :: CallPulse (CInt primary) Float.one
           :: meanwhile ++ [CallOff])
        (init pixel_count now).

(** An event of the effect thread or of the clock, not a call. *)
Definition is_background (ev : event) : bool :=
  match ev with
  | ThreadMove | ClockReads _ => true
  | _ => false
  end.

(** ** Colours on the command line (examples/neopixel_service.py) *)

(** [value[1:]]. *)
Definition str_tail (s : String.string) : String.string :=
  match s with
  | String.EmptyString => String.EmptyString
  | String.String _ rest => rest
  end.

(** [_parse_color(value)]. The two built-ins it calls, [str.strip] and
    [int(_, 16)], are parameters; [startswith] is [String.prefix]. *)
Definition _parse_color (strip : String.string -> String.string)
           (int16 : String.string -> result Z) (value : String.string) : result Z :=
  let value := strip value in
  let value := if String.prefix "#" value then str_tail value else value in
  if String.prefix "0x" value then int16 value else int16 value.

(** The value of a hexadecimal digit. *)
Definition hex_digit (c : Ascii.ascii) : option Z :=
  let n := Z.of_N (Ascii.N_of_ascii c) in
  if (48 <=? n) && (n <=? 57) then Some (n - 48)
  else if (97 <=? n) && (n <=? 102) then Some (n - 87)
  else if (65 <=? n) && (n <=? 70) then Some (n - 55)
  else None.

Fixpoint hex_value_from (acc : Z) (s : String.string) : option Z :=
  match s with
  | String.EmptyString => Some acc
  | String.String c rest =>
      match hex_digit c with
      | Some d => hex_value_from (16 * acc + d) rest
      | None => None
      end
  end.

(** The number a non-empty string of hexadecimal digits denotes. *)
Definition hex_value (s : String.string) : option Z :=
  match s with
  | String.EmptyString => None
  | _ => hex_value_from 0 s
  end.

(** A visible ASCII character: neither blank nor a control character. *)
Definition graphic (c : Ascii.ascii) : bool :=
  let n := Z.of_N (Ascii.N_of_ascii c) in (33 <=? n) && (n <=? 126).

Fixpoint last_char (s : String.string) : option Ascii.ascii :=
  match s with
  | String.EmptyString => None
  | String.String c String.EmptyString => Some c
  | String.String _ rest => last_char rest
  end.

(** The text begins and ends with a visible character. *)
Definition visible_ends (s : String.string) : Prop :=
  match s with
  | String.EmptyString => False
  | String.String c _ =>
      graphic c = true /\ exists z, last_char s = Some z /\ graphic z = true
  end.

(** What the properties below use of the two built-ins: [strip] leaves a
    text alone that begins and ends with a visible character, and
    [int(_, 16)] reads a non-empty string of hexadecimal digits, with or
    without the prefix [0x], as the number it denotes. *)
Record builtins_ok (strip : String.string -> String.string)
       (int16 : String.string -> result Z) : Prop := mkBuiltinsOk {
  strip_visible : forall t, visible_ends t -> strip t = t;
  int16_digits : forall ds v, hex_value ds = Some v ->
    int16 ds = Ok v /\ int16 (String.append "0x" ds) = Ok v
}.

(** A [strip] and an [int(_, 16)] for which [builtins_ok] holds: they
    read hexadecimal digits with an optional [0x] and refuse all else. *)
Definition sample_strip (t : String.string) : String.string := t.

Definition sample_int16 (t : String.string) : result Z :=
  match hex_value (if String.prefix "0x" t then str_tail (str_tail t) else t) with
  | Some v => Ok v
  | None => Raise ValueError
  end.

(** The colour of pixel [i] of the think frame at step [s], on a ring of
    [n] pixels, written after the formula of the specification: [offset =
    s mod n], [distance = (i - offset) mod n], [fade = max(0, 1 -
    distance / (n / 2))], the given secondary colour scaled by [fade *
    0.5]. *)
Definition think_pixel (n : Z) (secondary : RGBColor) (s i : Z) : result RGBColor :=
  let* offset := py_mod s n in
  let* distance := py_mod (i - offset) n in
  let* half_count := int_truediv n 2 in
  let* d := Float.of_int distance in
  let* ratio := Float.truediv d half_count in
  let fade := Float.max0 (Float.sub Float.one ratio) in
  _scale_color secondary (Float.mul fade Float.half).

(** * Properties *)

(** ** Colour normalisation *)

Example ensure_rgb_packed : _ensure_rgb (CInt 0x0080FF) = Ok (0, 128, 255).
Proof. reflexivity. Qed.

Example ensure_rgb_tuple :
  _ensure_rgb (CSeq [IInt 10; IInt 20; IInt 30]) = Ok (10, 20, 30).
Proof. reflexivity. Qed.

Example ensure_rgb_short : _ensure_rgb (CSeq [IInt 10; IInt 20]) = Raise ValueError.
Proof. reflexivity. Qed.

Lemma land_255_range (a : Z) : channel_ok (Z.land a 255).
Proof.
  unfold channel_ok. change 255 with (Z.ones 8).
  rewrite Z.land_ones by lia. change (2 ^ 8) with 256. change (Z.ones 8) with 255.
  assert (H256 : 0 < 256) by lia.
  pose proof (Z.mod_pos_bound a 256 H256). lia.
Qed.

Lemma int_to_rgb_in_range (v : Z) : rgb_in_range (_int_to_rgb v).
Proof.
  unfold rgb_in_range, _int_to_rgb; cbn [fst snd].
  repeat split; apply land_255_range.
Qed.

(** A channel only looks at bits [k .. k+7] with [k + 8 <= 24]. *)
Lemma channel_low_bits (v k : Z) :
  0 <= k -> k + 8 <= 24 ->
  Z.land (Z.shiftr (v mod 2 ^ 24) k) 255 = Z.land (Z.shiftr v k) 255.
Proof.
  intros Hk Hk8. apply Z.bits_inj'. intros n Hn.
  rewrite !Z.land_spec, !Z.shiftr_spec by lia.
  destruct (Z.testbit 255 n) eqn:Hb; [ | now rewrite !andb_false_r ].
  rewrite !andb_true_r.
  assert (n < 8).
  { destruct (Z_lt_dec n 8) as [ | Hge ]; [ assumption | ].
    change 255 with (Z.ones 8) in Hb.
    rewrite Z.ones_spec_high in Hb by lia. discriminate. }
  apply Z.mod_pow2_bits_low. lia.
Qed.

Lemma int_to_rgb_low_bits (v : Z) : _int_to_rgb (v mod 2 ^ 24) = _int_to_rgb v.
Proof.
  unfold _int_to_rgb.
  rewrite (channel_low_bits v 16), (channel_low_bits v 8) by lia.
  assert (H0 : Z.land (Z.shiftr (v mod 2 ^ 24) 0) 255 = Z.land (Z.shiftr v 0) 255)
    by (apply channel_low_bits; lia).
  rewrite !Z.shiftr_0_r in H0. now rewrite H0.
Qed.

(** C10: for every Python int [v], [_ensure_rgb(v)] returns (it does not
    raise) a triple whose three channels are each in [[0, 255]], and the
    triple is the one of [v mod 2^24]: bits of [v] above bit 23 are
    ignored, also for negative [v] and for [v > 0xFFFFFF]. *)
Theorem C10_int_channels_masked (v : Z) :
  _ensure_rgb (CInt v) = Ok (_int_to_rgb v)
  /\ rgb_in_range (_int_to_rgb v)
  /\ _ensure_rgb (CInt (v mod 2 ^ 24)) = _ensure_rgb (CInt v).
Proof.
  split; [ reflexivity | ].
  split; [ apply int_to_rgb_in_range | ].
  cbn [_ensure_rgb]. now rewrite int_to_rgb_low_bits.
Qed.

(** C3, as stated, fails: the 3-tuple [(300, -5, 0)] is accepted and comes
    back unchanged, with two channels outside [[0, 255]]. *)
Lemma C3_tuple_not_clamped :
  _ensure_rgb (CSeq [IInt 300; IInt (-5); IInt 0]) = Ok (300, -5, 0)
  /\ ~ rgb_in_range (300, -5, 0).
Proof.
  split; [ reflexivity | ].
  unfold rgb_in_range, channel_ok; cbn [fst snd]. lia.
Qed.

(** C3, amended: a packed integer gives three channels in [[0, 255]]
    (each masked to 8 bits); an accepted sequence has exactly three items
    and gives [int(item)] for each of them, unchanged and not clamped. *)
Theorem C3_normalised_channels (value : colour_spec) (c : RGBColor)
  (Hok : _ensure_rgb value = Ok c) :
  match value with
  | CInt v => c = _int_to_rgb v /\ rgb_in_range c
  | CSeq items =>
      exists x0 x1 x2, items = [x0; x1; x2]
        /\ py_int x0 = Ok c.1.1 /\ py_int x1 = Ok c.1.2 /\ py_int x2 = Ok c.2
  | CBytes _ | CFloat _ | CNone => False
  end.
Proof.
  destruct value as [ v | items | b | f | ]; cbn [_ensure_rgb] in Hok;
    try discriminate.
  - injection Hok as <-. split; [ reflexivity | apply int_to_rgb_in_range ].
  - destruct items as [ | x0 [ | x1 [ | x2 [ | x3 rest ] ] ] ];
      cbn in Hok; try discriminate.
    exists x0, x1, x2. split; [ reflexivity | ].
    destruct (py_int x0) as [ r | ]; cbn in Hok; [ | discriminate ].
    destruct (py_int x1) as [ g | ]; cbn in Hok; [ | discriminate ].
    destruct (py_int x2) as [ b | ]; cbn in Hok; [ | discriminate ].
    injection Hok as <-. cbn [fst snd]. auto.
Qed.

Lemma C3_normalised_channels_witness :
  exists x0 x1 x2, [IInt 300; IFloat Float.half; IInt 7] = [x0; x1; x2]
    /\ py_int x0 = Ok 300 /\ py_int x1 = Ok 0 /\ py_int x2 = Ok 7.
Proof.
  exact (C3_normalised_channels (CSeq [IInt 300; IFloat Float.half; IInt 7])
           (300, 0, 7) eq_refl).
Defined.

(** ** Frame generators *)

Section Frames.

Variable self : NeoPixelRing.

Lemma map_constant {A B : Type} (f : A -> B) (c : B) (l : list A) :
  Forall (fun x => f x = c) l -> map f l = replicate (length l) c.
Proof.
  induction 1 as [ | x l Hx _ IH ]; cbn; [ reflexivity | ].
  now rewrite Hx, IH.
Qed.

Lemma map_constant_seqZ {B : Type} (f : Z -> B) (c : B) (m n : Z) :
  (forall i, m <= i < m + n -> f i = c) ->
  map f (seqZ m n) = replicate (Z.to_nat n) c.
Proof.
  intros Hf. rewrite <- (length_seqZ m n). apply map_constant.
  apply Forall_seqZ. intros i Hi. apply Hf. lia.
Qed.

Lemma non_off_app (l1 l2 : list RGBColor) :
  non_off (l1 ++ l2) = (non_off l1 + non_off l2)%nat.
Proof. unfold non_off. now rewrite filter_app, length_app. Qed.

Lemma non_off_replicate_off (n : nat) : non_off (replicate n (0, 0, 0)) = 0%nat.
Proof.
  unfold non_off. induction n as [ | n IH ]; [ reflexivity | ].
  change (replicate (S n) (0, 0, 0)) with ((0, 0, 0) :: replicate n (0, 0, 0)).
  rewrite filter_cons_False; [ exact IH | ]. intros H. now apply H.
Qed.

Lemma non_off_replicate_lit (n : nat) (c : RGBColor) :
  c <> off_color -> non_off (replicate n c) = n.
Proof.
  intros Hc. unfold non_off. induction n as [ | n IH ]; [ reflexivity | ].
  change (replicate (S n) c) with (c :: replicate n c).
  rewrite filter_cons_True by exact Hc. cbn [length]. now rewrite IH.
Qed.

(** The wakeup frame is a run of primary pixels followed by off pixels. *)
Lemma wakeup_frame_shape (s : Z) :
  let N := self.(_pixel_count) in
  1 <= N -> 0 <= s ->
  let lit := Z.min (s mod (2 * N)) N in
  0 <= lit <= N
  /\ _wakeup_frame self s
     = Ok (replicate (Z.to_nat lit) self.(_palette).(primary)
             ++ replicate (Z.to_nat (N - lit)) (0, 0, 0)).
Proof.
  intros N HN Hs lit.
  assert (Hm : 0 <= s mod (2 * N) < 2 * N) by (apply Z.mod_pos_bound; lia).
  assert (Hlit : 0 <= lit <= N) by (subst lit; lia).
  split; [ exact Hlit | ].
  unfold _wakeup_frame, py_mod. fold N.
  destruct (N * 2 =? 0) eqn:E; [ lia | ]. cbn [rbind].
  replace (N * 2) with (2 * N) by lia. fold lit. f_equal.
  unfold py_range.
  replace N with (lit + (N - lit)) at 1 by lia.
  rewrite seqZ_app by lia. rewrite map_app. f_equal.
  - apply map_constant_seqZ. intros i Hi.
    destruct (i <? lit) eqn:Ei; [ reflexivity | lia ].
  - apply map_constant_seqZ. intros i Hi.
    destruct (i <? lit) eqn:Ei; [ lia | reflexivity ].
Qed.

(** The spin frame is off pixels, one primary pixel, off pixels. *)
Lemma spin_frame_shape (s : Z) :
  let N := self.(_pixel_count) in
  1 <= N -> 0 <= s ->
  let pos := s mod N in
  0 <= pos < N
  /\ _spin_frame self s
     = Ok (replicate (Z.to_nat pos) (0, 0, 0) ++ self.(_palette).(primary)
             :: replicate (Z.to_nat (N - pos - 1)) (0, 0, 0)).
Proof.
  intros N HN Hs pos.
  assert (Hpos : 0 <= pos < N) by (apply Z.mod_pos_bound; lia).
  split; [ exact Hpos | ].
  unfold _spin_frame, py_mod. fold N.
  destruct (N =? 0) eqn:E; [ lia | ]. cbn [rbind]. fold pos. f_equal.
  unfold py_range.
  replace N with (pos + (1 + (N - pos - 1))) at 1 by lia.
  rewrite seqZ_app by lia. rewrite map_app. f_equal.
  - apply map_constant_seqZ. intros i Hi.
    destruct (i =? pos) eqn:Ei; [ lia | reflexivity ].
  - rewrite seqZ_app by lia. rewrite map_app.
    rewrite (seqZ_cons _ 1) by lia. rewrite seqZ_nil by lia. cbn [map app].
    rewrite Z.add_0_l, Z.eqb_refl. f_equal.
    apply map_constant_seqZ. intros i Hi.
    destruct (i =? pos) eqn:Ei; [ lia | reflexivity ].
Qed.

End Frames.

Lemma black_ring_reachable :
  set_color_palette (init 1 Float.zero) (CInt 0) (CInt 0) = Returns black_ring.
Proof. reflexivity. Qed.

(** C6, as stated, fails when the primary colour is black: with one pixel
    and step 1 the claim asks for [min(1 mod 2, 1) = 1] non-off pixel, and
    the frame has none. *)
Lemma C6_black_primary_counts_zero :
  _wakeup_frame black_ring 1 = Ok [(0, 0, 0)]
  /\ Z.min (1 mod (2 * black_ring.(_pixel_count))) black_ring.(_pixel_count) = 1
  /\ non_off [(0, 0, 0)] <> 1%nat.
Proof. repeat split. vm_compute. discriminate. Qed.

(** C6, amended: for [pixel_count = N >= 1] and [step = s >= 0], with
    [lit = min(s mod 2N, N)], the wakeup frame has [N] pixels, those at
    indices [[0, lit)] equal the primary colour and all the others are
    [(0, 0, 0)]; so exactly [lit] pixels are non-off provided the primary
    colour is not itself [(0, 0, 0)]. *)
Theorem C6_wakeup_frame (self : NeoPixelRing) (s : Z)
  (HN : 1 <= self.(_pixel_count)) (Hs : 0 <= s) :
  let N := self.(_pixel_count) in
  let lit := Z.min (s mod (2 * N)) N in
  exists frame : list RGBColor,
    _wakeup_frame self s = Ok frame
    /\ length frame = Z.to_nat N
    /\ (forall i : nat, Z.of_nat i < lit ->
          frame !! i = Some self.(_palette).(primary))
    /\ (forall i : nat, lit <= Z.of_nat i < N -> frame !! i = Some (0, 0, 0))
    /\ (self.(_palette).(primary) <> off_color -> non_off frame = Z.to_nat lit).
Proof.
  intros N lit.
  destruct (wakeup_frame_shape self s HN Hs) as [Hlit Hframe].
  fold N lit in Hlit, Hframe.
  eexists. split; [ exact Hframe | ].
  split; [ | split; [ | split ] ].
  - rewrite length_app, !length_replicate. lia.
  - intros i Hi. rewrite lookup_app_l by (rewrite length_replicate; lia).
    apply lookup_replicate_2. lia.
  - intros i Hi. rewrite lookup_app_r by (rewrite length_replicate; lia).
    apply lookup_replicate_2. rewrite length_replicate. lia.
  - intros Hp. rewrite non_off_app, non_off_replicate_off.
    rewrite non_off_replicate_lit by exact Hp. lia.
Qed.

Lemma C6_wakeup_frame_witness :
  exists frame : list RGBColor,
    _wakeup_frame (init 12 Float.zero) 29 = Ok frame
    /\ length frame = 12%nat
    /\ (forall i : nat, Z.of_nat i < 5 -> frame !! i = Some (0, 128, 255))
    /\ (forall i : nat, 5 <= Z.of_nat i < 12 -> frame !! i = Some (0, 0, 0))
    /\ ((0, 128, 255) <> off_color -> non_off frame = 5%nat).
Proof.
  apply (C6_wakeup_frame (init 12 Float.zero) 29); cbn; lia.
Defined.

(** C7, as stated, fails when the primary colour is black: the spin frame
    of a one-pixel ring then has no non-off pixel at all, not one. *)
Lemma C7_black_primary_counts_zero :
  _spin_frame black_ring 0 = Ok [(0, 0, 0)]
  /\ non_off [(0, 0, 0)] <> 1%nat.
Proof. split; [ reflexivity | vm_compute; discriminate ]. Qed.

(** C7, amended: for [pixel_count = N >= 1] and [step = s >= 0], the spin
    frame has [N] pixels, the one at index [s mod N] equals the primary
    colour and every other pixel is [(0, 0, 0)]; so exactly one pixel is
    non-off provided the primary colour is not itself [(0, 0, 0)]. *)
Theorem C7_spin_frame (self : NeoPixelRing) (s : Z)
  (HN : 1 <= self.(_pixel_count)) (Hs : 0 <= s) :
  let N := self.(_pixel_count) in
  let pos := s mod N in
  exists frame : list RGBColor,
    _spin_frame self s = Ok frame
    /\ length frame = Z.to_nat N
    /\ 0 <= pos < N
    /\ frame !! Z.to_nat pos = Some self.(_palette).(primary)
    /\ (forall i : nat, Z.of_nat i < N -> Z.of_nat i <> pos ->
          frame !! i = Some (0, 0, 0))
    /\ (self.(_palette).(primary) <> off_color -> non_off frame = 1%nat).
Proof.
  intros N pos.
  destruct (spin_frame_shape self s HN Hs) as [Hpos Hframe].
  fold N pos in Hpos, Hframe.
  eexists. split; [ exact Hframe | ].
  split; [ | split; [ exact Hpos | split; [ | split ] ] ].
  - rewrite length_app. cbn [length]. rewrite !length_replicate. lia.
  - rewrite lookup_app_r by (rewrite length_replicate; lia).
    rewrite length_replicate, Nat.sub_diag. reflexivity.
  - intros i Hi Hne. destruct (Z_lt_dec (Z.of_nat i) pos) as [Hlt | Hge].
    + rewrite lookup_app_l by (rewrite length_replicate; lia).
      apply lookup_replicate_2. lia.
    + rewrite lookup_app_r by (rewrite length_replicate; lia).
      rewrite length_replicate.
      destruct (i - Z.to_nat pos)%nat as [ | k ] eqn:Ek; [ lia | ].
      cbn [lookup list_lookup]. apply lookup_replicate_2. lia.
  - intros Hp. rewrite non_off_app, non_off_replicate_off.
    change (self.(_palette).(primary) :: ?l) with ([self.(_palette).(primary)] ++ l).
    change (non_off ([primary (_palette self)] ++
                     replicate (Z.to_nat (N - pos - 1)) (0, 0, 0)) = 1%nat).
    rewrite non_off_app, non_off_replicate_off, Nat.add_0_r.
    apply (non_off_replicate_lit 1 _ Hp).
Qed.

Lemma C7_spin_frame_witness :
  exists frame : list RGBColor,
    _spin_frame (init 12 Float.zero) 17 = Ok frame
    /\ length frame = 12%nat
    /\ 0 <= 5 < 12
    /\ frame !! 5%nat = Some (0, 128, 255)
    /\ (forall i : nat, Z.of_nat i < 12 -> Z.of_nat i <> 5 ->
          frame !! i = Some (0, 0, 0))
    /\ ((0, 128, 255) <> off_color -> non_off frame = 1%nat).
Proof.
  apply (C7_spin_frame (init 12 Float.zero) 17); cbn; lia.
Defined.

Example waking_ring_state :
  thread_pc waking_ring = Some AtLoopTest
  /\ waking_ring.(flushed) = [[(0, 0, 0); (0, 0, 0); (0, 0, 0); (0, 0, 0)]]
  /\ _stop_event waking_ring = false.
Proof. vm_compute. auto. Qed.

(** ** The pulse brightness level *)

Lemma pulse_level_periodic (s : Z) : pulse_level (s + 40) = pulse_level s.
Proof.
  unfold pulse_level.
  replace ((s + 40) mod 40) with (s mod 40); [ reflexivity | ].
  replace (s + 40) with (s + 1 * 40) by lia.
  now rewrite Z_mod_plus_full.
Qed.

Lemma phase_cases (p : Z) :
  1 <= p <= 19 ->
  p = 1 \/ p = 2 \/ p = 3 \/ p = 4 \/ p = 5 \/ p = 6 \/ p = 7 \/ p = 8 \/ p = 9
  \/ p = 10 \/ p = 11 \/ p = 12 \/ p = 13 \/ p = 14 \/ p = 15 \/ p = 16
  \/ p = 17 \/ p = 18 \/ p = 19.
Proof. lia. Qed.

(** C8, as stated, fails: [level(1)] is the float 1/20 while [level(39)]
    is [1 - 19/20], a different float, so [level(1) == level(39)] is
    false. *)
Lemma C8_level_1_differs_from_level_39 :
  1 <= 1 <= 19 /\ Float.eqb (pulse_level 1) (pulse_level (40 - 1)) = false.
Proof. split; [ lia | vm_compute; reflexivity ]. Qed.

(** The difference reaches the ring: colour (5, 5, 5) at steps 4 and 36. *)
Example pulse_frames_4_and_36 :
  _pulse_frame (init 2 Float.zero) 4 (5, 5, 5) = Ok [(1, 1, 1); (1, 1, 1)]
  /\ _pulse_frame (init 2 Float.zero) 36 (5, 5, 5) = Ok [(0, 0, 0); (0, 0, 0)].
Proof. vm_compute. auto. Qed.

(** C8, amended: the pulse level has period 40 in the step counter, with
    [level(0) == 0] and [level(20) == 1]; [level(phase) == level(40 -
    phase)] holds exactly for the phases 5, 7, 8 and 10 to 19 of [[1, 19]],
    and for the phases 1, 2, 3, 4, 6 and 9 the two floats differ by
    rounding, by no more than 2^-53. *)
Theorem C8_pulse_level (s p : Z) (Hp : 1 <= p <= 19) :
  pulse_level (s + 40) = pulse_level s
  /\ Float.eqb (pulse_level 0) Float.zero = true
  /\ Float.eqb (pulse_level 20) Float.one = true
  /\ Float.eqb (pulse_level p) (pulse_level (40 - p)) = negb (asymmetric_phase p)
  /\ Float.leb (SFabs (Float.sub (pulse_level p) (pulse_level (40 - p))))
       rounding_unit = true.
Proof.
  split; [ apply pulse_level_periodic | ].
  split; [ vm_compute; reflexivity | ].
  split; [ vm_compute; reflexivity | ].
  destruct (phase_cases p Hp) as
    [-> | [-> | [-> | [-> | [-> | [-> | [-> | [-> | [-> | [-> | [-> | [-> |
    [-> | [-> | [-> | [-> | [-> | [-> | -> ]]]]]]]]]]]]]]]]]];
    vm_compute; split; reflexivity.
Qed.

Lemma C8_pulse_level_witness :
  pulse_level (3 + 40) = pulse_level 3
  /\ Float.eqb (pulse_level 0) Float.zero = true
  /\ Float.eqb (pulse_level 20) Float.one = true
  /\ Float.eqb (pulse_level 7) (pulse_level (40 - 7)) = negb (asymmetric_phase 7)
  /\ Float.leb (SFabs (Float.sub (pulse_level 7) (pulse_level (40 - 7))))
       rounding_unit = true.
Proof.
  apply (C8_pulse_level 3 7). lia.
Defined.

(** ** The pixel buffer *)

Lemma write_colors_safe (count : Z) (colors : list RGBColor) :
  forall (index : nat) (pixels : list RGBColor),
    length pixels = Z.to_nat count ->
    (write_colors count index colors pixels).2 = None
    /\ length (write_colors count index colors pixels).1 = length pixels.
Proof.
  induction colors as [ | c rest IH ]; intros index pixels Hlen; cbn [write_colors].
  - auto.
  - destruct (count <=? Z.of_nat index) eqn:Hc; [ auto | ].
    destruct (index <? length pixels)%nat eqn:Hi.
    + destruct (IH (S index) (<[index := c]> pixels)) as [H1 H2].
      { now rewrite length_insert. }
      rewrite length_insert in H2. auto.
    + apply Nat.ltb_ge in Hi. apply Z.leb_gt in Hc. lia.
Qed.

Lemma write_colors_full (count : Z) (colors : list RGBColor) :
  forall (index : nat) (pixels : list RGBColor),
    length pixels = Z.to_nat count ->
    (index + length colors = length pixels)%nat ->
    write_colors count index colors pixels = (take index pixels ++ colors, None).
Proof.
  induction colors as [ | c rest IH ]; intros index pixels Hlen Hsum;
    cbn [write_colors length] in *.
  - rewrite take_ge by lia. now rewrite app_nil_r.
  - destruct (count <=? Z.of_nat index) eqn:Hc.
    { apply Z.leb_le in Hc. lia. }
    destruct (index <? length pixels)%nat eqn:Hi;
      [ apply Nat.ltb_lt in Hi | apply Nat.ltb_ge in Hi; lia ].
    rewrite IH by (rewrite ?length_insert; lia).
    rewrite (take_S_r _ _ c) by (apply list_lookup_insert_eq; lia).
    rewrite take_insert_ge by lia. now rewrite <- app_assoc.
Qed.

(** A frame written on a well-formed ring raises nothing, is flushed, and
    touches nothing but the buffer and the flush log. *)
Lemma apply_colors_safe (self : NeoPixelRing) (colors : list RGBColor) :
  wf self ->
  exists px : list RGBColor,
    length px = length self.(_pixels)
    /\ _apply_colors self colors = (show (set_pixels px self), None).
Proof.
  intros Hwf. unfold _apply_colors.
  destruct (write_colors_safe self.(_pixel_count) colors 0 self.(_pixels) Hwf)
    as [Hnone Hlen].
  destruct (write_colors _ 0 colors _) as [px e]; cbn [fst snd] in *. subst e.
  exists px. auto.
Qed.

Lemma apply_colors_full (self : NeoPixelRing) (colors : list RGBColor) :
  wf self -> length colors = Z.to_nat self.(_pixel_count) ->
  _apply_colors self colors = (show (set_pixels colors self), None).
Proof.
  intros Hwf Hlen. unfold _apply_colors.
  rewrite (write_colors_full _ colors 0 _ Hwf) by (unfold wf in Hwf; lia).
  now rewrite take_0.
Qed.

Lemma fill_full (self : NeoPixelRing) (c : RGBColor) :
  wf self ->
  _fill self c
  = (show (set_pixels (replicate (Z.to_nat self.(_pixel_count)) c) self), None).
Proof.
  intros Hwf. unfold _fill, py_repeat.
  apply apply_colors_full; [ exact Hwf | apply length_replicate ].
Qed.

Lemma init_wf (pixel_count : Z) (now : float) : wf (init pixel_count now).
Proof. unfold wf, init, py_repeat; cbn. apply length_replicate. Qed.

(** ** The effect thread *)

Lemma thread_step_wf (self : NeoPixelRing) : wf self -> wf (thread_step self).
Proof.
  intros Hwf. unfold thread_step.
  destruct (_effect_thread self) as [ t | ]; [ | exact Hwf ].
  destruct (pc t); try exact Hwf.
  - destruct (_stop_event self); [ exact Hwf | ].
    destruct (call_generator _ self _) as [ colors | e ]; [ | exact Hwf ].
    destruct (apply_colors_safe self colors Hwf) as (px & Hpx & ->).
    destruct (elapsed t _); unfold wf in *; cbn; lia.
  - destruct (_stop_event self); exact Hwf.
  - destruct (_stop_event self); cbn [negb]; [ exact Hwf | ].
    destruct (apply_colors_safe self (py_repeat (0, 0, 0) (_pixel_count self)) Hwf)
      as (px & Hpx & ->).
    unfold wf in *; cbn; lia.
Qed.

(** With the stop event set, a move of the thread writes no frame. *)
Lemma thread_step_stopped (self : NeoPixelRing) :
  _stop_event self = true ->
  exists th : option Thread, thread_step self = set_thread th self.
Proof.
  intros Hstop. unfold thread_step.
  destruct self as [px fl n pal [ t | ] st clk]; cbn in *; subst st;
    [ | now exists None ].
  destruct (pc t); eexists; reflexivity.
Qed.

(** Once the stop event is set, [join] returns as soon as the thread is
    not blocked: the thread has then exited and no frame was written. *)
Lemma join_stopped (self : NeoPixelRing) (t : Thread) :
  _effect_thread self = Some t -> _stop_event self = true ->
  match t.(pc) with
  | Blocked => join self = None
  | _ => exists t' : Thread,
           join self = Some (set_thread (Some t') self)
           /\ t'.(pc) = Exited
           /\ t'.(frame_generator) = t.(frame_generator)
  end.
Proof.
  intros Ht Hstop.
  destruct self as [px fl n pal th st clk]; cbn in *; subst th st.
  destruct t as [g i d s0 k p]; destruct p; cbn;
    try (eexists; split; [ reflexivity | split; reflexivity ]).
  reflexivity.
Qed.

(** [_stop_effect] on a responsive ring returns with the effect slot
    empty, leaving buffer, flush log, palette and clock as they were. *)
Lemma stop_effect_returns (self : NeoPixelRing) :
  responsive self ->
  exists st : bool,
    _stop_effect self = Returns (set_stop_event st (set_thread None self))
    /\ (is_Some self.(_effect_thread) -> st = false).
Proof.
  intros Hresp. unfold _stop_effect, responsive in *.
  destruct self as [px fl n pal [ t | ] st clk]; cbn in *.
  - exists false. split; [ | reflexivity ].
    destruct t as [g i d s0 k p]; destruct p; cbn in *; try reflexivity.
    now contradiction Hresp.
  - exists st. split; [ reflexivity | ]. intros [x Hx]. discriminate.
Qed.


(** One pass of the loop body on a running, uncancelled thread writes and
    flushes the frame its generator returns. *)
Lemma thread_step_frame (self : NeoPixelRing) (t : Thread) (colors : list RGBColor) :
  wf self -> _effect_thread self = Some t -> t.(pc) = AtLoopTest ->
  _stop_event self = false ->
  call_generator t.(frame_generator) self t.(step) = Ok colors ->
  length colors = Z.to_nat self.(_pixel_count) ->
  _pixels (thread_step self) = colors
  /\ flushed (thread_step self) = flushed self ++ [colors]
  /\ thread_pc (thread_step self)
     = Some (if elapsed t self.(monotonic) then AtFinalTest else AtWait).
Proof.
  intros Hwf Ht Hpc Hstop Hgen Hlen. unfold thread_step, thread_pc.
  rewrite Ht, Hpc, Hstop, Hgen, (apply_colors_full self colors Hwf Hlen).
  cbn [show set_pixels monotonic].
  destruct (elapsed t (monotonic self)); cbn; auto.
Qed.

(** ** Stopping an effect *)

(** C4, as stated, fails: once the spin thread of [stalled_ring] is held
    in a call that does not return, [_stop_effect], and with it [off] and
    [wakeup], never return to their caller; nothing is reported and
    nothing proceeds. *)
Lemma C4_stalled_thread_blocks_caller :
  thread_pc stalled_ring = Some Blocked
  /\ _stop_effect stalled_ring = Hangs
  /\ off stalled_ring = Hangs
  /\ wakeup stalled_ring (Some (Float.of_Z 2)) = Hangs.
Proof. vm_compute. auto. Qed.

(** C4, amended: [_stop_effect] sets the stop event and joins the effect
    thread with no timeout and no report.  If the thread is not blocked,
    the join ends with the thread exited, which the runner reaches from
    any of its program points once the event is set, and [_stop_effect]
    returns with the effect slot empty and the event clear; if the thread
    is blocked the caller is blocked with it. *)
Theorem C4_stop_effect_joins_unbounded (self : NeoPixelRing) (t : Thread)
  (Ht : _effect_thread self = Some t) :
  match t.(pc) with
  | Blocked => _stop_effect self = Hangs
  | _ =>
      (exists t' : Thread,
         join (set_stop_event true self)
         = Some (set_thread (Some t') (set_stop_event true self))
         /\ t'.(pc) = Exited)
      /\ _stop_effect self = Returns (set_stop_event false (set_thread None self))
  end.
Proof.
  destruct self as [px fl n pal th st clk]; cbn in Ht; subst th.
  destruct t as [g i d s0 k p].
  destruct p; cbn [pc];
    try (split; [ eexists; split; reflexivity | reflexivity ]).
  reflexivity.
Qed.

Lemma C4_stop_effect_joins_unbounded_witness :
  (exists t' : Thread,
     join (set_stop_event true thinking_ring)
     = Some (set_thread (Some t') (set_stop_event true thinking_ring))
     /\ t'.(pc) = Exited)
  /\ _stop_effect thinking_ring
     = Returns (set_stop_event false (set_thread None thinking_ring)).
Proof.
  exact (C4_stop_effect_joins_unbounded thinking_ring
           (mkThread ThinkFrame (Float.lit 12 100) None Float.zero 2 AtWait)
           eq_refl).
Defined.

(** ** Turning the ring off *)



Lemma thinking_ring_wf : wf thinking_ring.
Proof. vm_compute. reflexivity. Qed.


(** ** The end of the frame loop *)

(** The loop body run while the duration has elapsed leaves the loop; if
    the stop event is still clear at the final test, the all-zero frame is
    written and flushed. *)
Lemma natural_completion (self : NeoPixelRing) (t : Thread) (colors : list RGBColor) :
  wf self -> _effect_thread self = Some t -> t.(pc) = AtLoopTest ->
  _stop_event self = false ->
  call_generator t.(frame_generator) self t.(step) = Ok colors ->
  elapsed t self.(monotonic) = true ->
  thread_pc (thread_step self) = Some AtFinalTest
  /\ thread_pc (thread_step (thread_step self)) = Some Exited
  /\ zeroed (thread_step (thread_step self))
  /\ exists frame : list RGBColor,
       flushed (thread_step self) = flushed self ++ [frame]
       /\ flushed (thread_step (thread_step self))
          = flushed self
              ++ [frame; replicate (Z.to_nat self.(_pixel_count)) (0, 0, 0)].
Proof.
  intros Hwf Ht Hpc Hstop Hgen Hel.
  destruct (apply_colors_safe self colors Hwf) as (px & Hpx & Happ).
  assert (Hstep : thread_step self
                  = set_thread (Some (mkThread t.(frame_generator) t.(interval)
                                        t.(duration) t.(start) (t.(step) + 1)
                                        AtFinalTest))
                      (show (set_pixels px self))).
  { unfold thread_step. rewrite Ht, Hpc, Hstop, Hgen, Happ.
    cbn [show set_pixels monotonic]. rewrite Hel. reflexivity. }
  rewrite Hstep.
  split; [ reflexivity | ].
  set (s1 := set_thread _ (show (set_pixels px self))).
  assert (Hwf1 : wf s1) by (unfold wf in *; cbn; lia).
  assert (Hstep2 : thread_step s1
                   = set_thread (Some (mkThread t.(frame_generator) t.(interval)
                                         t.(duration) t.(start) (t.(step) + 1)
                                         Exited))
                       (show (set_pixels
                                (replicate (Z.to_nat self.(_pixel_count)) (0, 0, 0))
                                s1))).
  { unfold thread_step.
    cbn [s1 set_thread _effect_thread pc _stop_event show set_pixels].
    rewrite Hstop. cbn [negb].
    change (_apply_colors ?s (py_repeat ?c (_pixel_count ?s))) with (_fill s c).
    fold s1. rewrite (fill_full s1 (0, 0, 0) Hwf1). reflexivity. }
  rewrite Hstep2.
  split; [ reflexivity | ]. split; [ reflexivity | ].
  exists px. split; [ reflexivity | ].
  cbn. now rewrite <- app_assoc.
Qed.

(** A thread that finds the stop event set, at the loop test or on return
    from the wait, leaves the loop and exits at the final test without
    writing anything. *)
Lemma cancelled_exit (self : NeoPixelRing) (t : Thread) :
  _effect_thread self = Some t -> t.(pc) = AtLoopTest \/ t.(pc) = AtWait ->
  _stop_event self = true ->
  thread_pc (thread_step self) = Some AtFinalTest
  /\ _stop_event (thread_step self) = true
  /\ thread_pc (thread_step (thread_step self)) = Some Exited
  /\ flushed (thread_step (thread_step self)) = flushed self
  /\ _pixels (thread_step (thread_step self)) = _pixels self.
Proof.
  intros Ht Hpc Hstop.
  destruct self as [px fl n pal th st clk]; cbn in *; subst th st.
  destruct t as [g i d s0 k p]; cbn in Hpc.
  destruct Hpc as [-> | ->]; cbn; auto.
Qed.

(** C5: a [runner] that leaves its loop because the duration has elapsed,
    the stop event being clear, goes to the final test and there, no
    cancellation having come, writes and flushes exactly one all-zero
    frame after the last frame of the loop, then exits; a [runner] that
    leaves its loop because the stop event is set (seen at the loop test
    or on return from the wait) exits without writing any frame, and so
    does a whole [_stop_effect]: the flush log is what it was. *)
Theorem C5_final_frame (self : NeoPixelRing) (t : Thread)
  (Hwf : wf self) (Ht : _effect_thread self = Some t) :
  (t.(pc) = AtLoopTest -> _stop_event self = false ->
   elapsed t self.(monotonic) = true ->
   forall colors : list RGBColor,
     call_generator t.(frame_generator) self t.(step) = Ok colors ->
     thread_pc (thread_step self) = Some AtFinalTest
     /\ thread_pc (thread_step (thread_step self)) = Some Exited
     /\ zeroed (thread_step (thread_step self))
     /\ exists frame : list RGBColor,
          flushed (thread_step self) = flushed self ++ [frame]
          /\ flushed (thread_step (thread_step self))
             = flushed self
                 ++ [frame; replicate (Z.to_nat self.(_pixel_count)) (0, 0, 0)])
  /\ (t.(pc) = AtLoopTest \/ t.(pc) = AtWait -> _stop_event self = true ->
      thread_pc (thread_step self) = Some AtFinalTest
      /\ thread_pc (thread_step (thread_step self)) = Some Exited
      /\ flushed (thread_step (thread_step self)) = flushed self
      /\ _pixels (thread_step (thread_step self)) = _pixels self)
  /\ (t.(pc) <> Blocked ->
      exists self' : NeoPixelRing,
        _stop_effect self = Returns self'
        /\ _effect_thread self' = None
        /\ flushed self' = flushed self
        /\ _pixels self' = _pixels self).
Proof.
  split; [ | split ].
  - intros Hpc Hstop Hel colors Hgen.
    exact (natural_completion self t colors Hwf Ht Hpc Hstop Hgen Hel).
  - intros Hpc Hstop.
    destruct (cancelled_exit self t Ht Hpc Hstop) as (H1 & _ & H2 & H3 & H4). auto.
  - intros Hpc.
    destruct (stop_effect_returns self) as (st & Hret & _).
    { unfold responsive. now rewrite Ht. }
    eexists. split; [ exact Hret | ].
    destruct self; cbn; auto.
Qed.

Example expiring_ring_state :
  expiring_ring.(_effect_thread)
  = Some (mkThread WakeupFrame (Float.lit 8 100) (Some Float.half) Float.zero 0
                   AtLoopTest)
  /\ expiring_ring.(monotonic) = Float.one
  /\ expiring_ring.(_stop_event) = false.
Proof. vm_compute. auto. Qed.

Lemma C5_final_frame_witness :
  thread_pc (thread_step expiring_ring) = Some AtFinalTest
  /\ thread_pc (thread_step (thread_step expiring_ring)) = Some Exited
  /\ zeroed (thread_step (thread_step expiring_ring))
  /\ exists frame : list RGBColor,
       flushed (thread_step expiring_ring) = flushed expiring_ring ++ [frame]
       /\ flushed (thread_step (thread_step expiring_ring))
          = flushed expiring_ring
              ++ [frame; [(0, 0, 0); (0, 0, 0); (0, 0, 0); (0, 0, 0)]].
Proof.
  refine (proj1 (C5_final_frame expiring_ring
            (mkThread WakeupFrame (Float.lit 8 100) (Some Float.half) Float.zero 0
                      AtLoopTest) _ _) _ _ _
            [(0, 0, 0); (0, 0, 0); (0, 0, 0); (0, 0, 0)] _);
    vm_compute; reflexivity.
Defined.

(** ** Invalid colour specifications *)

Lemma ensure_rgb_invalid (value : colour_spec) :
  invalid_spec value ->
  _ensure_rgb value
  = Raise (match value with CSeq _ => ValueError | _ => TypeError end).
Proof.
  destruct value as [ v | items | b | f | ]; cbn; intros H; try reflexivity.
  - contradiction.
  - destruct (Nat.eqb_spec (length items) 3); [ contradiction | reflexivity ].
Qed.

(** [set_color_palette] normalises both colours before it assigns. *)
Lemma set_color_palette_invalid (self : NeoPixelRing) (p q : colour_spec) :
  invalid_spec p \/ invalid_spec q ->
  exists e : exn, set_color_palette self p q = Raises e self.
Proof.
  intros [Hp | Hq]; unfold set_color_palette.
  - rewrite (ensure_rgb_invalid p Hp). eauto.
  - rewrite (ensure_rgb_invalid q Hq). destruct (_ensure_rgb p); eauto.
Qed.

(** [pulse] normalises its colour before it stops the running effect. *)
Lemma pulse_invalid (self : NeoPixelRing) (c : colour_spec) (d : float) :
  invalid_spec c -> exists e : exn, pulse self c d = Raises e self.
Proof.
  intros Hc. unfold pulse. rewrite (ensure_rgb_invalid c Hc). eauto.
Qed.

(** [mono] stops the running effect first and normalises afterwards: the
    exception leaves the engine with its effect slot empty. *)
Lemma mono_invalid (self : NeoPixelRing) (c : colour_spec) :
  invalid_spec c -> responsive self ->
  exists (e : exn) (st : bool),
    mono self c = Raises e (set_stop_event st (set_thread None self)).
Proof.
  intros Hc Hresp. unfold mono.
  destruct (stop_effect_returns self Hresp) as (st & -> & _). cbn [and_then].
  rewrite (ensure_rgb_invalid c Hc). eauto.
Qed.

(** C2 fails in the code for [mono]: on a ring whose think effect is
    running, [mono((255, 0))] raises [ValueError] to its caller only after
    [_stop_effect] has stopped and joined that effect, so the effect slot
    is empty afterwards, whereas [pulse] and [set_color_palette] given the
    same colour raise and leave the engine as it was. *)
Theorem C2_mono_stops_effect_before_raising :
  invalid_spec (CSeq [IInt 255; IInt 0])
  /\ thread_pc thinking_ring = Some AtWait
  /\ mono thinking_ring (CSeq [IInt 255; IInt 0])
     = Raises ValueError (set_thread None thinking_ring)
  /\ thread_pc (set_thread None thinking_ring) = None
  /\ pulse thinking_ring (CSeq [IInt 255; IInt 0]) (Float.of_Z 1)
     = Raises ValueError thinking_ring
  /\ set_color_palette thinking_ring (CSeq [IInt 255; IInt 0]) (CInt 0)
     = Raises ValueError thinking_ring.
Proof.
  split; [ cbn; lia | ].
  vm_compute. auto 6.
Qed.

(** ** Changing the palette under a running effect *)

Lemma apply_colors_set_palette (pal : Palette) (self : NeoPixelRing)
      (colors : list RGBColor) :
  _apply_colors (set_palette pal self) colors
  = (set_palette pal (_apply_colors self colors).1, (_apply_colors self colors).2).
Proof.
  unfold _apply_colors. cbn [set_palette _pixel_count _pixels].
  destruct (write_colors _ 0 colors _) as [px [ e | ]]; reflexivity.
Qed.

(** A thread move on two rings that differ in their palette only, and on
    which the generator returns the same frame, gives the same buffer and
    flush log. *)
Lemma thread_step_set_palette (pal : Palette) (self : NeoPixelRing) (t : Thread) :
  _effect_thread self = Some t ->
  call_generator t.(frame_generator) (set_palette pal self) t.(step)
  = call_generator t.(frame_generator) self t.(step) ->
  thread_step (set_palette pal self) = set_palette pal (thread_step self).
Proof.
  intros Ht Hgen. unfold thread_step.
  cbn [set_palette _effect_thread _stop_event _pixel_count monotonic].
  rewrite Ht. destruct (pc t); try reflexivity.
  - destruct (_stop_event self); [ reflexivity | ].
    fold (set_palette pal self). rewrite Hgen.
    destruct (call_generator _ self _) as [ colors | e ]; [ | reflexivity ].
    rewrite apply_colors_set_palette.
    destruct (_apply_colors self colors) as [s' [ e | ]]; cbn [fst snd];
      [ reflexivity | ].
    cbn [set_palette monotonic]. destruct (elapsed t _); reflexivity.
  - destruct (_stop_event self); reflexivity.
  - destruct (_stop_event self); cbn [negb]; [ reflexivity | ].
    fold (set_palette pal self).
    change (_pixel_count self) with (_pixel_count (set_palette pal self)) at 1.
    rewrite apply_colors_set_palette. reflexivity.
Qed.

(** C1, as stated, fails: [wakeup()] is running on [waking_ring] when
    [set_color_palette(0xFF0000, 0x00FF00)] is called; the next frame of
    that same effect is lit in the new primary colour, not in the colour
    the palette had when the effect started. *)
Lemma C1_running_wakeup_takes_new_palette :
  set_color_palette waking_ring (CInt 0xFF0000) (CInt 0x00FF00)
  = Returns recoloured_ring
  /\ _effect_thread recoloured_ring = _effect_thread waking_ring
  /\ _pixels (thread_step waking_ring)
     = [(0, 128, 255); (0, 0, 0); (0, 0, 0); (0, 0, 0)]
  /\ _pixels (thread_step recoloured_ring)
     = [(255, 0, 0); (0, 0, 0); (0, 0, 0); (0, 0, 0)]
  /\ _pixels (thread_step recoloured_ring) <> _pixels (thread_step waking_ring).
Proof.
  vm_compute. repeat split. discriminate.
Qed.

Lemma collect_length {A B : Type} (f : A -> result B) (xs : list A) (ys : list B) :
  collect f xs = Ok ys -> length ys = length xs.
Proof.
  revert ys. induction xs as [ | x rest IH ]; intros ys H; cbn in H.
  - now injection H as <-.
  - destruct (f x) as [ y | ]; cbn in H; [ | discriminate ].
    destruct (collect f rest) as [ ys' | ]; cbn in H; [ | discriminate ].
    injection H as <-. cbn. now rewrite (IH ys' eq_refl).
Qed.

Lemma frame_length_of (g : FrameGen) (self : NeoPixelRing) (s : Z)
  (frame : list RGBColor) (Hgen : call_generator g self s = Ok frame) :
  length frame = Z.to_nat self.(_pixel_count).
Proof.
  destruct g as [ | | | rgb ]; cbn [call_generator] in Hgen.
  - unfold _wakeup_frame in Hgen.
    destruct (py_mod _ _); cbn in Hgen; [ | discriminate ].
    injection Hgen as <-. unfold py_range. now rewrite length_map, length_seqZ.
  - unfold _think_frame in Hgen.
    destruct (py_mod _ _); cbn [rbind] in Hgen; [ | discriminate ].
    apply collect_length in Hgen. rewrite Hgen. unfold py_range. apply length_seqZ.
  - unfold _spin_frame in Hgen.
    destruct (py_mod _ _); cbn in Hgen; [ | discriminate ].
    injection Hgen as <-. unfold py_range. now rewrite length_map, length_seqZ.
  - unfold _pulse_frame in Hgen.
    destruct (_scale_color _ _); cbn in Hgen; [ | discriminate ].
    injection Hgen as <-. unfold py_repeat. apply length_replicate.
Qed.

Lemma collect_lookup {A B : Type} (f : A -> result B) (xs : list A) (ys : list B) :
  collect f xs = Ok ys ->
  forall (i : nat) (x : A), xs !! i = Some x ->
    exists y : B, ys !! i = Some y /\ f x = Ok y.
Proof.
  revert ys. induction xs as [ | x0 rest IH ]; intros ys H i x Hi.
  - destruct i; discriminate.
  - cbn in H. destruct (f x0) as [ y0 | ] eqn:Hy; cbn in H; [ | discriminate ].
    destruct (collect f rest) as [ ys' | ]; cbn in H; [ | discriminate ].
    injection H as <-. destruct i as [ | i ].
    + injection Hi as <-. exists y0. auto.
    + exact (IH ys' eq_refl i x Hi).
Qed.

Lemma py_mod_ok (a n : Z) : n <> 0 -> py_mod a n = Ok (a mod n).
Proof. intros Hn. unfold py_mod. destruct (Z.eqb_spec n 0); [ contradiction | reflexivity ]. Qed.

(** C1, amended: [set_color_palette] replaces the palette and leaves the
    running effect in place; the wakeup, think and spin generators read
    the engine's palette on every frame, so the next frame of a running
    wakeup or spin effect is lit in the new primary colour and each pixel
    of the next frame of a running think effect is the new secondary
    colour scaled by the fade of that pixel; only a pulse effect, whose
    colour was normalised when [pulse] was called, produces the frame it
    would have produced without the call. The next pass of the loop writes
    and flushes that frame, its channels being in [[0, 255]]. *)
Theorem C1_palette_read_on_every_frame
  (self self' : NeoPixelRing) (p q : colour_spec) (t : Thread)
  (Hwf : wf self)
  (Hcall : set_color_palette self p q = Returns self')
  (Ht : _effect_thread self = Some t) (Hpc : t.(pc) = AtLoopTest)
  (Hstop : _stop_event self = false)
  (HN : 1 <= self.(_pixel_count)) (Hs : 0 <= t.(step)) :
  let N := self.(_pixel_count) in
  let g := t.(frame_generator) in
  _effect_thread self' = Some t
  /\ exists P Q : RGBColor,
       _ensure_rgb p = Ok P /\ _ensure_rgb q = Ok Q
       /\ _palette self' = mkPalette P Q
       /\ (forall frame : list RGBColor,
             call_generator g self' t.(step) = Ok frame ->
             Forall rgb_in_range frame ->
             _pixels (thread_step self') = frame
             /\ flushed (thread_step self') = flushed self ++ [frame])
       /\ match g with
          | WakeupFrame =>
              let lit := Z.min (t.(step) mod (2 * N)) N in
              call_generator g self' t.(step)
              = Ok (replicate (Z.to_nat lit) P
                      ++ replicate (Z.to_nat (N - lit)) (0, 0, 0))
          | SpinFrame =>
              let pos := t.(step) mod N in
              call_generator g self' t.(step)
              = Ok (replicate (Z.to_nat pos) (0, 0, 0) ++ P
                      :: replicate (Z.to_nat (N - pos - 1)) (0, 0, 0))
          | ThinkFrame =>
              forall frame : list RGBColor,
                call_generator g self' t.(step) = Ok frame ->
                forall i : Z, 0 <= i < N ->
                  exists c : RGBColor,
                    frame !! Z.to_nat i = Some c
                    /\ think_pixel N Q t.(step) i = Ok c
          | PulseFrame rgb =>
              call_generator g self' t.(step) = call_generator g self t.(step)
              /\ _pixels (thread_step self') = _pixels (thread_step self)
              /\ flushed (thread_step self') = flushed (thread_step self)
          end.
Proof.
  intros N g. unfold set_color_palette in Hcall.
  destruct (_ensure_rgb p) as [ P | ]; [ | discriminate ].
  destruct (_ensure_rgb q) as [ Q | ]; [ | discriminate ].
  injection Hcall as <-.
  split; [ exact Ht | ]. exists P, Q. do 3 (split; [ reflexivity | ]).
  set (self' := set_palette (mkPalette P Q) self).
  assert (Hwf' : wf self') by exact Hwf.
  split.
  { intros frame Hgen _.
    pose proof (frame_length_of _ _ _ _ Hgen) as Hlen.
    destruct (thread_step_frame self' t frame Hwf' Ht Hpc Hstop Hgen Hlen)
      as (Hpx & Hfl & _).
    split; [ exact Hpx | exact Hfl ]. }
  subst g. destruct (frame_generator t) as [ | | | rgb ] eqn:Hg.
  - destruct (wakeup_frame_shape self' t.(step) HN Hs) as [_ Hframe].
    exact Hframe.
  - intros frame Hgen i Hi. subst N.
    assert (HN0 : _pixel_count self <> 0) by lia.
    cbn [call_generator] in Hgen. unfold _think_frame in Hgen.
    cbn [self' set_palette _pixel_count _palette secondary] in Hgen.
    rewrite (py_mod_ok _ _ HN0) in Hgen. cbn [rbind] in Hgen.
    assert (Hri : py_range (_pixel_count self) !! Z.to_nat i = Some i).
    { unfold py_range. rewrite lookup_seqZ_lt by lia. f_equal. lia. }
    destruct (collect_lookup _ _ _ Hgen _ _ Hri) as (c & Hc & Ec).
    exists c. split; [ exact Hc | ].
    unfold think_pixel. rewrite (py_mod_ok _ _ HN0). cbn [rbind]. exact Ec.
  - destruct (spin_frame_shape self' t.(step) HN Hs) as [_ Hframe].
    exact Hframe.
  - pose proof (thread_step_set_palette (mkPalette P Q) self t Ht) as Hcomm.
    rewrite Hg in Hcomm. fold self' in Hcomm.
    rewrite Hcomm by reflexivity. repeat split; reflexivity.
Qed.

Lemma C1_palette_read_on_every_frame_witness :
  _effect_thread recoloured_ring
  = Some (mkThread WakeupFrame (Float.lit 8 100) None Float.zero 1 AtLoopTest)
  /\ exists P Q : RGBColor,
       _ensure_rgb (CInt 0xFF0000) = Ok P /\ _ensure_rgb (CInt 0x00FF00) = Ok Q
       /\ _palette recoloured_ring = mkPalette P Q
       /\ (forall frame : list RGBColor,
             call_generator WakeupFrame recoloured_ring 1 = Ok frame ->
             Forall rgb_in_range frame ->
             _pixels (thread_step recoloured_ring) = frame
             /\ flushed (thread_step recoloured_ring) = flushed waking_ring ++ [frame])
       /\ call_generator WakeupFrame recoloured_ring 1
          = Ok (replicate 1 P ++ replicate 3 (0, 0, 0)).
Proof.
  apply (C1_palette_read_on_every_frame waking_ring recoloured_ring
           (CInt 0xFF0000) (CInt 0x00FF00)
           (mkThread WakeupFrame (Float.lit 8 100) None Float.zero 1 AtLoopTest));
    first [ vm_compute; reflexivity | vm_compute; discriminate ].
Defined.

(** The think branch on a concrete ring: [think()] is two frames in on
    twelve pixels when [set_color_palette(0, 0x00C864)] is called; the
    next frame fades the new secondary colour [(0, 200, 100)] from pixel 2
    on, where the old palette would have given [(0, 61, 27)]. *)
Example running_think_takes_new_secondary :
  let ring := thread_step thinking_ring in
  thread_pc ring = Some AtLoopTest
  /\ exists ring' : NeoPixelRing,
       set_color_palette ring (CInt 0) (CInt 0x00C864) = Returns ring'
       /\ _pixels (thread_step ring')
          = [(0, 0, 0); (0, 0, 0); (0, 100, 50); (0, 83, 41); (0, 66, 33);
             (0, 50, 25); (0, 33, 16); (0, 16, 8); (0, 0, 0); (0, 0, 0);
             (0, 0, 0); (0, 0, 0)]
       /\ _pixels (thread_step ring) !! 2%nat = Some (0, 61, 27)
       /\ think_pixel 12 (0, 200, 100) 2 3 = Ok (0, 83, 41).
Proof.
  split; [ vm_compute; reflexivity | ].
  eexists. split; [ vm_compute; reflexivity | ].
  vm_compute. repeat split.
Qed.

(** ** Invariants along a history *)

Lemma thread_step_stop_event (self : NeoPixelRing) :
  _stop_event (thread_step self) = _stop_event self.
Proof.
  unfold thread_step.
  destruct (_effect_thread self) as [ t | ]; [ | reflexivity ].
  destruct (pc t); try reflexivity.
  - destruct (_stop_event self) eqn:E; [ exact E | ].
    destruct (call_generator _ self _) as [ colors | e ]; [ | exact E ].
    unfold _apply_colors.
    destruct (write_colors _ 0 colors _) as [px [ e | ]]; cbn; [ exact E | ].
    destruct (elapsed t _); exact E.
  - destruct (_stop_event self) eqn:E; exact E.
  - destruct (_stop_event self) eqn:E; cbn [negb]; [ exact E | ].
    unfold _apply_colors.
    destruct (write_colors _ 0 _ _) as [px [ e | ]]; exact E.
Qed.

Lemma thread_moves_wf (n : nat) (self : NeoPixelRing) :
  wf self -> wf (Nat.iter n thread_step self).
Proof.
  intros Hwf. induction n as [ | n IH ]; [ exact Hwf | ].
  cbn [Nat.iter nat_rect]. now apply thread_step_wf.
Qed.

Lemma stop_effect_steady (self : NeoPixelRing) :
  steady self -> leaves steady (_stop_effect self).
Proof.
  intros [Hwf Hstop]. unfold _stop_effect, join.
  destruct (_effect_thread self) as [ t | ] eqn:Ht; [ | now split ].
  cbn [set_stop_event _effect_thread]. rewrite Ht.
  destruct (moves_to_exit (pc t)) as [ n | ]; [ | exact I ].
  split; [ | reflexivity ].
  exact (thread_moves_wf n (set_stop_event true self) Hwf).
Qed.

Lemma and_then_leaves (P : NeoPixelRing -> Prop) (o : outcome)
      (k : NeoPixelRing -> outcome) :
  leaves P o -> (forall self, P self -> leaves P (k self)) ->
  leaves P (and_then o k).
Proof. destruct o; cbn; auto. Qed.

Lemma apply_colors_steady (self : NeoPixelRing) (colors : list RGBColor) :
  steady self -> leaves steady (applied (_apply_colors self colors)).
Proof.
  intros [Hwf Hstop].
  destruct (apply_colors_safe self colors Hwf) as (px & Hpx & ->).
  split; [ exact (eq_trans Hpx Hwf) | exact Hstop ].
Qed.

Lemma start_effect_steady (self : NeoPixelRing) (g : FrameGen) (i : float)
      (d : option float) :
  steady self -> leaves steady (_start_effect self g i d).
Proof.
  intros H. unfold _start_effect.
  apply and_then_leaves; [ now apply stop_effect_steady | ].
  intros s [Hwf _]. now split.
Qed.

(** Every event keeps the engine steady. *)
Lemma perform_steady (ev : event) (self : NeoPixelRing) :
  steady self -> leaves steady (perform ev self).
Proof.
  intros H.
  destruct ev as [ p q | d | d | | d | c | c d | | | t | ]; cbn [perform leaves].
  - unfold set_color_palette.
    destruct (_ensure_rgb p); [ destruct (_ensure_rgb q) | ]; exact H.
  - now apply start_effect_steady.
  - now apply start_effect_steady.
  - apply and_then_leaves; [ now apply stop_effect_steady | ].
    intros s Hs. now apply apply_colors_steady.
  - now apply start_effect_steady.
  - apply and_then_leaves; [ now apply stop_effect_steady | ].
    intros s Hs. destruct (_ensure_rgb c); [ now apply apply_colors_steady | exact Hs ].
  - unfold pulse. destruct (_ensure_rgb c); [ now apply start_effect_steady | exact H ].
  - apply and_then_leaves; [ now apply stop_effect_steady | ].
    intros s Hs. now apply apply_colors_steady.
  - destruct H as [Hwf Hstop].
    split; [ now apply thread_step_wf | now rewrite thread_step_stop_event ].
  - exact H.
  - unfold stall. destruct (_effect_thread self) as [ t | ]; [ | exact H ].
    destruct (pc t); exact H.
Qed.

(** So is every engine met along a history of a freshly built one. *)
Lemma after_steady (history : list event) :
  forall self self' : NeoPixelRing,
    steady self -> after history self = Some self' -> steady self'.
Proof.
  induction history as [ | ev rest IH ]; intros self self' Hs Hafter; cbn in Hafter.
  - now injection Hafter as <-.
  - pose proof (perform_steady ev self Hs) as Hp.
    destruct (perform ev self) as [ s1 | e s1 | ]; [ | | discriminate ];
      exact (IH s1 self' Hp Hafter).
Qed.

Lemma init_steady (pixel_count : Z) (now : float) : steady (init pixel_count now).
Proof. split; [ apply init_wf | reflexivity ]. Qed.

(** [speak()] then [off()] on a fresh twelve-pixel ring: all off, no
    effect thread. *)
Example speak_then_off :
  exists self : NeoPixelRing,
    after [CallSpeak; CallOff] (init 12 Float.zero) = Some self
    /\ zeroed self /\ self.(_effect_thread) = None
    /\ length self.(flushed) = 2%nat.
Proof. eexists. vm_compute. auto. Qed.

(** [wakeup(duration=0.5)] on a four-pixel ring, the clock reading 0.0,
    0.2, 0.4, 0.6 at the successive moves of the thread: three frames, then
    the final all-zero frame, and the thread has exited. *)
Example wakeup_runs_out :
  exists self : NeoPixelRing,
    after [CallWakeup (Some Float.half);
           ThreadMove;
           ClockReads (Float.lit 2 10); ThreadMove; ThreadMove;
           ClockReads (Float.lit 4 10); ThreadMove; ThreadMove;
           ClockReads (Float.lit 6 10); ThreadMove; ThreadMove]
          (init 4 Float.zero) = Some self
    /\ thread_pc self = Some Exited
    /\ self.(flushed)
       = [ [(0, 0, 0); (0, 0, 0); (0, 0, 0); (0, 0, 0)];
           [(0, 128, 255); (0, 0, 0); (0, 0, 0); (0, 0, 0)];
           [(0, 128, 255); (0, 128, 255); (0, 0, 0); (0, 0, 0)];
           [(0, 0, 0); (0, 0, 0); (0, 0, 0); (0, 0, 0)] ].
Proof. eexists. vm_compute. auto. Qed.

(** * Further properties of the code *)

(** ** Colours *)

Lemma unpack_channels (r g b : Z) :
  channel_ok r -> channel_ok g -> channel_ok b ->
  _int_to_rgb (r * 65536 + g * 256 + b) = (r, g, b).
Proof.
  unfold channel_ok. intros Hr Hg Hb. unfold _int_to_rgb.
  change 255 with (Z.ones 8).
  rewrite !Z.land_ones, !Z.shiftr_div_pow2 by lia.
  change (2 ^ 8) with 256. change (2 ^ 16) with 65536.
  set (x := r * 65536 + g * 256 + b).
  assert (H16 : x / 65536 = r).
  { symmetry. apply (Z.div_unique x 65536 r (g * 256 + b)); subst x; lia. }
  assert (H8 : x / 256 = r * 256 + g).
  { symmetry. apply (Z.div_unique x 256 (r * 256 + g) b); subst x; lia. }
  rewrite H16, H8.
  assert (Er : r mod 256 = r) by (apply Z.mod_small; lia).
  assert (Eg : (r * 256 + g) mod 256 = g).
  { symmetry. apply (Z.mod_unique (r * 256 + g) 256 r g); lia. }
  assert (Eb : x mod 256 = b).
  { symmetry. apply (Z.mod_unique x 256 (r * 256 + g) b); subst x; lia. }
  now rewrite Er, Eg, Eb.
Qed.

(** [_int_to_rgb] undoes the packing [0xRRGGBB]: three channels in
    [[0, 255]] packed as [r * 65536 + g * 256 + b] come back as
    [(r, g, b)]. *)
Theorem int_to_rgb_unpacks (r g b : Z)
  (Hr : channel_ok r) (Hg : channel_ok g) (Hb : channel_ok b) :
  _int_to_rgb (r * 65536 + g * 256 + b) = (r, g, b).
Proof. exact (unpack_channels r g b Hr Hg Hb). Qed.

Lemma int_to_rgb_unpacks_witness :
  _int_to_rgb (0 * 65536 + 122 * 256 + 55) = (0, 122, 55).
Proof.
  apply (int_to_rgb_unpacks 0 122 55); unfold channel_ok; lia.
Defined.

(** ** Frame generators *)

(** Whenever a generator returns, its frame has one colour per pixel. *)
Theorem generator_frame_length (g : FrameGen) (self : NeoPixelRing) (s : Z)
  (frame : list RGBColor) (Hgen : call_generator g self s = Ok frame) :
  length frame = Z.to_nat self.(_pixel_count).
Proof. exact (frame_length_of g self s frame Hgen). Qed.

Lemma generator_frame_length_witness :
  length [(0, 0, 0); (0, 128, 255); (0, 0, 0); (0, 0, 0)] = 4%nat.
Proof.
  exact (generator_frame_length SpinFrame (init 4 Float.zero) 9 _ eq_refl).
Defined.

Lemma py_mod_plus (s n : Z) : py_mod (s + n) n = py_mod s n.
Proof.
  unfold py_mod. destruct (n =? 0); [ reflexivity | ].
  replace (s + n) with (s + 1 * n) by lia. now rewrite Z_mod_plus_full.
Qed.

(** Every generator repeats: wakeup after [2 * pixel_count] steps, think
    and spin after [pixel_count] steps, pulse after 40 steps; when a
    generator raises at a step it raises the same at the later one. *)
Theorem generator_periodic (g : FrameGen) (self : NeoPixelRing) (s : Z) :
  call_generator g self (s + period g self.(_pixel_count)) = call_generator g self s.
Proof.
  destruct g as [ | | | rgb ]; cbn [call_generator period].
  - unfold _wakeup_frame.
    replace (2 * _pixel_count self) with (_pixel_count self * 2) by lia.
    now rewrite py_mod_plus.
  - unfold _think_frame. now rewrite py_mod_plus.
  - unfold _spin_frame. now rewrite py_mod_plus.
  - unfold _pulse_frame. now rewrite pulse_level_periodic.
Qed.

(** With [pixel_count = 0] the wakeup, think and spin generators raise
    [ZeroDivisionError] at every step and pulse returns the empty frame;
    an effect thread running one of the first three ends at its first
    pass of the loop without writing or flushing anything. *)
Theorem zero_pixels (self : NeoPixelRing) (s : Z) (rgb : RGBColor) (t : Thread)
  (Hzero : self.(_pixel_count) = 0)
  (Ht : self.(_effect_thread) = Some t) (Hpc : t.(pc) = AtLoopTest)
  (Hstop : self.(_stop_event) = false)
  (Hg : forall c, t.(frame_generator) <> PulseFrame c) :
  _wakeup_frame self s = Raise ZeroDivisionError
  /\ _think_frame self s = Raise ZeroDivisionError
  /\ _spin_frame self s = Raise ZeroDivisionError
  /\ (forall scaled, _scale_color rgb (pulse_level s) = Ok scaled ->
        _pulse_frame self s rgb = Ok [])
  /\ thread_pc (thread_step self) = Some Exited
  /\ flushed (thread_step self) = flushed self
  /\ _pixels (thread_step self) = _pixels self.
Proof.
  assert (Hw : forall x, _wakeup_frame self x = Raise ZeroDivisionError).
  { intros x. unfold _wakeup_frame, py_mod. now rewrite Hzero. }
  assert (Hth : forall x, _think_frame self x = Raise ZeroDivisionError).
  { intros x. unfold _think_frame, py_mod. now rewrite Hzero. }
  assert (Hsp : forall x, _spin_frame self x = Raise ZeroDivisionError).
  { intros x. unfold _spin_frame, py_mod. now rewrite Hzero. }
  split; [ apply Hw | ]. split; [ apply Hth | ]. split; [ apply Hsp | ].
  split.
  { intros scaled Hsc. unfold _pulse_frame. now rewrite Hsc, Hzero. }
  assert (Hcall : exists e, call_generator t.(frame_generator) self t.(step) = Raise e).
  { destruct (frame_generator t) as [ | | | c ]; cbn [call_generator]; eauto.
    now contradiction (Hg c). }
  destruct Hcall as [e Hcall].
  unfold thread_step, thread_pc. rewrite Ht, Hpc, Hstop, Hcall. cbn. auto.
Qed.

Lemma zero_pixels_witness :
  let self := run [Float.zero]
                (set_thread (Some (mkThread SpinFrame (Float.lit 6 100) None
                                            Float.zero 0 AtStart))
                            (init 0 Float.zero)) in
  _wakeup_frame self 5 = Raise ZeroDivisionError
  /\ _think_frame self 5 = Raise ZeroDivisionError
  /\ _spin_frame self 5 = Raise ZeroDivisionError
  /\ (forall scaled, _scale_color (1, 2, 3) (pulse_level 5) = Ok scaled ->
        _pulse_frame self 5 (1, 2, 3) = Ok [])
  /\ thread_pc (thread_step self) = Some Exited
  /\ flushed (thread_step self) = flushed self
  /\ _pixels (thread_step self) = _pixels self.
Proof.
  intros self.
  apply (zero_pixels self 5 (1, 2, 3)
           (mkThread SpinFrame (Float.lit 6 100) None Float.zero 0 AtLoopTest));
    try reflexivity.
  intros c. discriminate.
Defined.

(** ** Writing a frame of any length *)

Lemma write_colors_bounds (count : Z) (colors : list RGBColor) :
  forall (index : nat) (pixels : list RGBColor),
    length pixels = Z.to_nat count -> (index <= length pixels)%nat ->
    write_colors count index colors pixels
    = (take index pixels ++ take (length pixels - index) colors
         ++ drop (index + length colors) pixels, None).
Proof.
  induction colors as [ | c rest IH ]; intros index pixels Hlen Hle;
    cbn [write_colors length].
  - rewrite take_nil, Nat.add_0_r. cbn [app]. now rewrite take_drop.
  - destruct (count <=? Z.of_nat index) eqn:Hc.
    + apply Z.leb_le in Hc.
      assert (index = length pixels) by lia. subst index.
      rewrite Nat.sub_diag, take_0, take_ge, drop_ge by lia.
      now rewrite !app_nil_r.
    + apply Z.leb_gt in Hc.
      destruct (index <? length pixels)%nat eqn:Hi;
        [ apply Nat.ltb_lt in Hi | apply Nat.ltb_ge in Hi; lia ].
      rewrite IH by (rewrite ?length_insert; lia).
      rewrite length_insert.
      rewrite (take_S_r _ _ c) by (apply list_lookup_insert_eq; lia).
      rewrite take_insert_ge, drop_insert_lt by lia.
      replace (length pixels - index)%nat with (S (length pixels - S index)) by lia.
      cbn [take]. rewrite <- app_assoc. cbn [app].
      now replace (S index + length rest)%nat with (index + S (length rest))%nat by lia.
Qed.

(** [_apply_colors] on a buffer of [pixel_count] slots, with a frame of
    any length whose first [pixel_count] colours have their channels in
    [[0, 255]], does not raise: colours beyond [pixel_count] are dropped,
    slots beyond the frame keep what they held, and the buffer is flushed
    exactly once. *)
Theorem apply_colors_bounds (self : NeoPixelRing) (colors : list RGBColor)
  (Hwf : wf self)
  (Hrange : Forall rgb_in_range (take (Z.to_nat self.(_pixel_count)) colors)) :
  let n := Z.to_nat self.(_pixel_count) in
  let px := take n colors ++ drop (length colors) self.(_pixels) in
  _apply_colors self colors = (show (set_pixels px self), None)
  /\ length px = n
  /\ flushed (_apply_colors self colors).1 = flushed self ++ [px].
Proof.
  clear Hrange. intros n px. unfold wf in Hwf.
  assert (Happ : _apply_colors self colors = (show (set_pixels px self), None)).
  { unfold _apply_colors.
    rewrite (write_colors_bounds _ colors 0 _ Hwf) by lia.
    rewrite take_0, Nat.sub_0_r, Hwf. reflexivity. }
  split; [ exact Happ | ]. split; [ | now rewrite Happ ].
  subst px. rewrite length_app, length_take, length_drop. fold n in Hwf. lia.
Qed.

Lemma apply_colors_bounds_witness :
  let self := init 2 Float.zero in
  let px := take 2 [(1, 1, 1); (2, 2, 2); (3, 3, 3)] ++ drop 3 self.(_pixels) in
  _apply_colors self [(1, 1, 1); (2, 2, 2); (3, 3, 3)]
  = (show (set_pixels px self), None)
  /\ length px = 2%nat
  /\ flushed (_apply_colors self [(1, 1, 1); (2, 2, 2); (3, 3, 3)]).1
     = flushed self ++ [px].
Proof.
  intros self.
  apply (apply_colors_bounds self [(1, 1, 1); (2, 2, 2); (3, 3, 3)]).
  - vm_compute. reflexivity.
  - repeat constructor; cbn; lia.
Defined.

(** ** Solid colours *)

Lemma stop_then_fill (self : NeoPixelRing) (c : RGBColor) :
  wf self -> responsive self ->
  exists self' : NeoPixelRing,
    and_then (_stop_effect self) (fun s => applied (_fill s c)) = Returns self'
    /\ _pixels self' = replicate (Z.to_nat self.(_pixel_count)) c
    /\ flushed self' = flushed self ++ [replicate (Z.to_nat self.(_pixel_count)) c]
    /\ _effect_thread self' = None
    /\ _palette self' = _palette self
    /\ _pixel_count self' = _pixel_count self
    /\ (_stop_event self = false -> _stop_event self' = false).
Proof.
  intros Hwf Hresp.
  destruct (stop_effect_returns self Hresp) as (st & Hstop & Hst).
  rewrite Hstop. cbn [and_then].
  rewrite fill_full by exact Hwf. cbn [applied].
  eexists. split; [ reflexivity | ].
  assert (Est : _stop_event self = false -> st = false).
  { intros E. destruct (_effect_thread self) eqn:Ht; [ apply Hst; eauto | ].
    unfold _stop_effect in Hstop. rewrite Ht in Hstop. injection Hstop as Hstop.
    apply (f_equal _stop_event) in Hstop. cbn in Hstop. congruence. }
  destruct self; cbn in *. auto 8.
Qed.

(** [speak()] on a ring whose primary colour has its channels in
    [[0, 255]] and whose effect thread, if any, is not blocked: the call
    returns, the effect is gone, every pixel shows the primary colour and
    the last frame flushed is that fill; with no effect thread to stop it
    is the only frame the call flushes. *)
Theorem speak_fills_primary (self : NeoPixelRing)
  (Hwf : wf self) (Hresp : responsive self)
  (Hrange : rgb_in_range self.(_palette).(primary)) :
  let fill := replicate (Z.to_nat self.(_pixel_count)) self.(_palette).(primary) in
  exists self' : NeoPixelRing,
    speak self = Returns self'
    /\ _pixels self' = fill
    /\ last (flushed self') = Some fill
    /\ (_effect_thread self = None -> flushed self' = flushed self ++ [fill])
    /\ _effect_thread self' = None.
Proof.
  clear Hrange. intros fill. subst fill. unfold speak.
  destruct (stop_effect_returns self Hresp) as (st & Hstop & _).
  rewrite Hstop. cbn [and_then].
  rewrite fill_full by exact Hwf. cbn [applied].
  eexists. split; [ reflexivity | ].
  assert (Hlog : _effect_thread self = None ->
                 flushed (set_stop_event st (set_thread None self)) = flushed self)
    by (intros _; destruct self; reflexivity).
  destruct self; cbn in *.
  split; [ reflexivity | ]. split; [ apply last_snoc | ].
  split; [ intros _; reflexivity | reflexivity ].
Qed.

Lemma speak_fills_primary_witness :
  exists self' : NeoPixelRing,
    speak thinking_ring = Returns self'
    /\ _pixels self' = replicate 12 (0, 128, 255)
    /\ last (flushed self') = Some (replicate 12 (0, 128, 255))
    /\ (_effect_thread thinking_ring = None ->
        flushed self' = flushed thinking_ring ++ [replicate 12 (0, 128, 255)])
    /\ _effect_thread self' = None.
Proof.
  apply (speak_fills_primary thinking_ring);
    [ vm_compute; reflexivity | vm_compute; discriminate
    | vm_compute; repeat split; discriminate ].
Defined.

(** [mono(color)] with a colour that [_ensure_rgb] normalises to
    channels in [[0, 255]], on a ring whose effect thread, if any, is not
    blocked: the call returns, the effect is gone, every pixel shows the
    normalised colour and the last frame flushed is that fill; with no
    effect thread to stop it is the only frame the call flushes. *)
Theorem mono_fills (self : NeoPixelRing) (color : colour_spec) (rgb : RGBColor)
  (Hwf : wf self) (Hresp : responsive self) (Hrgb : _ensure_rgb color = Ok rgb)
  (Hrange : rgb_in_range rgb) :
  let fill := replicate (Z.to_nat self.(_pixel_count)) rgb in
  exists self' : NeoPixelRing,
    mono self color = Returns self'
    /\ _pixels self' = fill
    /\ last (flushed self') = Some fill
    /\ (_effect_thread self = None -> flushed self' = flushed self ++ [fill])
    /\ _effect_thread self' = None.
Proof.
  clear Hrange. intros fill. subst fill. unfold mono.
  destruct (stop_effect_returns self Hresp) as (st & Hstop & _).
  rewrite Hstop. cbn [and_then]. rewrite Hrgb.
  rewrite fill_full by exact Hwf. cbn [applied].
  eexists. split; [ reflexivity | ].
  destruct self; cbn in *.
  split; [ reflexivity | ]. split; [ apply last_snoc | ].
  split; [ intros _; reflexivity | reflexivity ].
Qed.

Lemma mono_fills_witness :
  exists self' : NeoPixelRing,
    mono thinking_ring (CInt 0xFF0000) = Returns self'
    /\ _pixels self' = replicate 12 (255, 0, 0)
    /\ last (flushed self') = Some (replicate 12 (255, 0, 0))
    /\ (_effect_thread thinking_ring = None ->
        flushed self' = flushed thinking_ring ++ [replicate 12 (255, 0, 0)])
    /\ _effect_thread self' = None.
Proof.
  apply (mono_fills thinking_ring (CInt 0xFF0000) (255, 0, 0));
    [ vm_compute; reflexivity | vm_compute; discriminate | reflexivity
    | unfold rgb_in_range, channel_ok; cbn; lia ].
Defined.

(** ** The frame loop *)

(** A generator looks at the pixel count and the palette only. *)
Lemma call_generator_ext (g : FrameGen) (s1 s2 : NeoPixelRing) (x : Z) :
  _pixel_count s1 = _pixel_count s2 -> _palette s1 = _palette s2 ->
  call_generator g s1 x = call_generator g s2 x.
Proof.
  intros Hc Hp.
  destruct g; cbn [call_generator];
    unfold _wakeup_frame, _think_frame, _spin_frame, _pulse_frame;
    now rewrite Hc, ?Hp.
Qed.






(** ** Starting an effect *)

Lemma start_effect_returns (self : NeoPixelRing) (g : FrameGen) (i : float)
      (d : option float) :
  responsive self ->
  _start_effect self g i d
  = Returns (mkRing self.(_pixels) self.(flushed) self.(_pixel_count)
                    self.(_palette) (Some (mkThread g i d Float.zero 0 AtStart))
                    false self.(monotonic)).
Proof.
  intros Hresp. unfold _start_effect.
  destruct (stop_effect_returns self Hresp) as (st & -> & _).
  destruct self; reflexivity.
Qed.

Lemma start_effect_shows (self : NeoPixelRing) (g : FrameGen) (i : float)
  (d : option float) (frame : list RGBColor)
  (Hwf : wf self) (Hresp : responsive self)
  (Hgen : call_generator g self 0 = Ok frame) :
  exists s1 : NeoPixelRing,
    _start_effect self g i d = Returns s1
    /\ _pixels s1 = _pixels self /\ flushed s1 = flushed self
    /\ _palette s1 = _palette self
    /\ _effect_thread s1 = Some (mkThread g i d Float.zero 0 AtStart)
    /\ _stop_event s1 = false
    /\ flushed (thread_step (thread_step s1)) = flushed self ++ [frame]
    /\ _pixels (thread_step (thread_step s1)) = frame.
Proof.
  rewrite (start_effect_returns self g i d Hresp).
  eexists. split; [ reflexivity | ].
  do 5 (split; [ reflexivity | ]).
  set (s1 := mkRing _ _ _ _ _ _ _).
  set (s2 := thread_step s1).
  assert (Hs2 : s2 = set_thread (Some (mkThread g i d self.(monotonic) 0 AtLoopTest)) s1)
    by reflexivity.
  assert (Hwf2 : wf s2) by (rewrite Hs2; exact Hwf).
  assert (Hgen2 : call_generator g s2 0 = Ok frame).
  { rewrite <- Hgen. apply call_generator_ext; rewrite Hs2; reflexivity. }
  assert (Hlen : length frame = Z.to_nat s2.(_pixel_count))
    by exact (frame_length_of _ _ _ _ Hgen2).
  assert (Hth2 : _effect_thread s2
                 = Some (mkThread g i d self.(monotonic) 0 AtLoopTest))
    by (rewrite Hs2; reflexivity).
  assert (Hstop2 : _stop_event s2 = false) by (rewrite Hs2; reflexivity).
  destruct (thread_step_frame s2 _ frame Hwf2 Hth2 eq_refl Hstop2 Hgen2 Hlen)
    as (Hpx & Hfl & _).
  split; [ rewrite Hfl, Hs2; reflexivity | exact Hpx ].
Qed.

(** Starting an effect on a ring whose thread, if any, is not blocked
    returns with a new thread at step 0, the stop event clear and the
    palette unchanged; when there was no effect to stop, the call itself
    writes and flushes nothing. The new thread then reads the clock and,
    at its first pass, writes the frame of step 0 of its generator, whose
    channels are in [[0, 255]], and flushes it once. *)
Theorem start_effect_first_frame (self : NeoPixelRing) (g : FrameGen) (i : float)
  (d : option float) (frame : list RGBColor)
  (Hwf : wf self) (Hresp : responsive self)
  (Hgen : call_generator g self 0 = Ok frame)
  (Hrange : Forall rgb_in_range frame) :
  exists s1 : NeoPixelRing,
    _start_effect self g i d = Returns s1
    /\ _palette s1 = _palette self
    /\ _effect_thread s1 = Some (mkThread g i d Float.zero 0 AtStart)
    /\ _stop_event s1 = false
    /\ (_effect_thread self = None ->
        _pixels s1 = _pixels self /\ flushed s1 = flushed self)
    /\ flushed (thread_step (thread_step s1)) = flushed s1 ++ [frame]
    /\ _pixels (thread_step (thread_step s1)) = frame.
Proof.
  clear Hrange.
  destruct (start_effect_shows self g i d frame Hwf Hresp Hgen)
    as (s1 & Hret & Hpx & Hfl & Hpal & Hth & Hev & Hlog & Hbuf).
  exists s1. do 4 (split; [ assumption | ]).
  split; [ intros _; split; assumption | ].
  split; [ rewrite Hfl; exact Hlog | exact Hbuf ].
Qed.

Lemma start_effect_first_frame_witness :
  exists s1 : NeoPixelRing,
    _start_effect (init 12 Float.zero) SpinFrame (Float.lit 6 100) None = Returns s1
    /\ _palette s1 = _palette (init 12 Float.zero)
    /\ _effect_thread s1
       = Some (mkThread SpinFrame (Float.lit 6 100) None Float.zero 0 AtStart)
    /\ _stop_event s1 = false
    /\ (_effect_thread (init 12 Float.zero) = None ->
        _pixels s1 = _pixels (init 12 Float.zero)
        /\ flushed s1 = flushed (init 12 Float.zero))
    /\ flushed (thread_step (thread_step s1))
       = flushed s1 ++ [(0, 128, 255) :: replicate 11 (0, 0, 0)]
    /\ _pixels (thread_step (thread_step s1)) = (0, 128, 255) :: replicate 11 (0, 0, 0).
Proof.
  apply (start_effect_first_frame (init 12 Float.zero) SpinFrame (Float.lit 6 100) None);
    [ reflexivity | exact I | vm_compute; reflexivity
    | repeat constructor; cbn; lia ].
Defined.

(** The first frame [wakeup()] shows is dark: at step 0 no pixel is lit,
    so the ring is all [(0, 0, 0)] until the second pass of the loop. *)
Theorem wakeup_starts_dark (self : NeoPixelRing) (d : option float)
  (Hwf : wf self) (Hresp : responsive self) (HN : 1 <= self.(_pixel_count)) :
  exists s1 : NeoPixelRing,
    wakeup self d = Returns s1
    /\ flushed s1 = flushed self
    /\ flushed (thread_step (thread_step s1))
       = flushed self ++ [replicate (Z.to_nat self.(_pixel_count)) (0, 0, 0)].
Proof.
  destruct (wakeup_frame_shape self 0 HN ltac:(reflexivity)) as [_ Hframe].
  rewrite Z.mod_0_l in Hframe by lia.
  replace (Z.min 0 (_pixel_count self)) with 0 in Hframe by lia.
  cbn [Z.to_nat replicate app] in Hframe. rewrite Z.sub_0_r in Hframe.
  destruct (start_effect_shows self WakeupFrame (Float.lit 8 100) d _
              Hwf Hresp Hframe) as (s1 & H1 & _ & H2 & _ & _ & _ & H3 & _).
  exists s1. auto.
Qed.

Lemma wakeup_starts_dark_witness :
  exists s1 : NeoPixelRing,
    wakeup thinking_ring (Some (Float.of_Z 2)) = Returns s1
    /\ flushed s1 = flushed thinking_ring
    /\ flushed (thread_step (thread_step s1))
       = flushed thinking_ring ++ [replicate 12 (0, 0, 0)].
Proof.
  apply (wakeup_starts_dark thinking_ring (Some (Float.of_Z 2)));
    [ vm_compute; reflexivity | vm_compute; discriminate | vm_compute; discriminate ].
Defined.

(** ** The pulse effect *)

Lemma pulse_levels_eq : pulse_levels = map pulse_level (seqZ 0 40).
Proof. vm_compute. reflexivity. Qed.

Lemma pulse_table : forallb pulse_row_ok (seqZ 0 256) = true.
Proof. vm_compute. reflexivity. Qed.

Lemma pulse_level_phase (s : Z) : pulse_level (s mod 40) = pulse_level s.
Proof. unfold pulse_level. now rewrite Z.mod_mod by lia. Qed.

Lemma forallb_seqZ (f : Z -> bool) (n : Z) :
  forallb f (seqZ 0 n) = true -> forall x, 0 <= x < n -> f x = true.
Proof.
  intros H x Hx. rewrite forallb_forall in H. apply H.
  apply list_elem_of_In, elem_of_seqZ. lia.
Qed.

Lemma pulse_levels_lookup (p : nat) :
  (p < 40)%nat -> pulse_levels !! p = Some (pulse_level (Z.of_nat p)).
Proof.
  intros Hp. rewrite pulse_levels_eq.
  change (map pulse_level (seqZ 0 40)) with (pulse_level <$> seqZ 0 40).
  rewrite list_lookup_fmap, lookup_seqZ_lt by lia. reflexivity.
Qed.

(** What the table says, for a channel at steps [s] and [s + 1]. *)
Lemma pulse_channel_facts (c s : Z) :
  channel_ok c ->
  exists v w : Z,
    scale_channel c (pulse_level s) = Ok v
    /\ scale_channel c (pulse_level (s + 1)) = Ok w
    /\ 0 <= v <= c
    /\ (if s mod 40 <? 20 then v <= w else w <= v)
    /\ (s mod 40 = 0 -> v = 0)
    /\ (s mod 40 = 20 -> v = c).
Proof.
  intros Hc. unfold channel_ok in Hc.
  assert (Hrow : pulse_row_ok c = true)
    by (apply (forallb_seqZ pulse_row_ok 256 pulse_table); lia).
  unfold pulse_row_ok in Hrow.
  destruct (collect (scale_channel c) pulse_levels) as [ vs | ] eqn:Hvs;
    [ | discriminate ].
  pose proof (Z.mod_pos_bound s 40 ltac:(reflexivity)) as Hm.
  set (p := Z.to_nat (s mod 40)).
  assert (Hp : (p < 40)%nat) by (subst p; lia).
  assert (Hq : (S p mod 40 < 40)%nat) by (apply Nat.mod_upper_bound; lia).
  rewrite forallb_forall in Hrow.
  specialize (Hrow p ltac:(apply in_seq; lia)).
  destruct (collect_lookup _ _ _ Hvs p _ (pulse_levels_lookup p Hp)) as (v & Hv & Ev).
  destruct (collect_lookup _ _ _ Hvs _ _ (pulse_levels_lookup _ Hq)) as (w & Hw & Ew).
  unfold pulse_phase_ok in Hrow. rewrite Hv, Hw in Hrow.
  assert (Es : Z.of_nat p = s mod 40) by (subst p; lia).
  assert (Es1 : Z.of_nat (S p mod 40) = (s + 1) mod 40).
  { rewrite Nat2Z.inj_mod, Nat2Z.inj_succ, Es.
    change (Z.of_nat 40) with 40. unfold Z.succ.
    now rewrite Zplus_mod_idemp_l. }
  rewrite Es, pulse_level_phase in Ev. rewrite Es1, pulse_level_phase in Ew.
  exists v, w. do 2 (split; [ assumption | ]).
  repeat (apply andb_prop in Hrow; destruct Hrow as [Hrow ?]).
  split; [ lia | ]. split.
  { destruct (Z.ltb_spec (s mod 40) 20); destruct (Nat.ltb_spec p 20); lia. }
  split; intros E.
  - destruct (Nat.eqb_spec p 0); lia.
  - destruct (Nat.eqb_spec p 20); lia.
Qed.

Lemma scale_color_channels (r g b : Z) (f : float) :
  _scale_color (r, g, b) f
  = rbind (scale_channel r f) (fun r' =>
      rbind (scale_channel g f) (fun g' =>
        rbind (scale_channel b f) (fun b' => Ok (r', g', b')))).
Proof. reflexivity. Qed.

(** For a colour with channels in [[0, 255]] the pulse frame never raises
    and is [pixel_count] copies of one colour, each channel of which lies
    between 0 and the channel given: a pulse is never brighter than its
    colour. *)
Theorem pulse_frame_bounded (self : NeoPixelRing) (s : Z) (rgb : RGBColor)
  (Hrange : rgb_in_range rgb) :
  exists scaled : RGBColor,
    _pulse_frame self s rgb
    = Ok (replicate (Z.to_nat self.(_pixel_count)) scaled)
    /\ rgb_le (0, 0, 0) scaled /\ rgb_le scaled rgb.
Proof.
  destruct rgb as [[r g] b]. destruct Hrange as (Hr & Hg & Hb); cbn [fst snd] in *.
  destruct (pulse_channel_facts r s Hr) as (vr & _ & Er & _ & Br & _).
  destruct (pulse_channel_facts g s Hg) as (vg & _ & Eg & _ & Bg & _).
  destruct (pulse_channel_facts b s Hb) as (vb & _ & Eb & _ & Bb & _).
  exists (vr, vg, vb). unfold _pulse_frame.
  rewrite scale_color_channels, Er, Eg, Eb. cbn [rbind].
  split; [ reflexivity | ].
  unfold rgb_le; cbn [fst snd]. lia.
Qed.

Lemma pulse_frame_bounded_witness :
  exists scaled : RGBColor,
    _pulse_frame (init 12 Float.zero) 7 (0, 128, 255) = Ok (replicate 12 scaled)
    /\ rgb_le (0, 0, 0) scaled /\ rgb_le scaled (0, 128, 255).
Proof.
  apply (pulse_frame_bounded (init 12 Float.zero) 7 (0, 128, 255)).
  unfold rgb_in_range, channel_ok; cbn; lia.
Defined.

(** For a colour with channels in [[0, 255]] the pulse is dark at every
    step that is a multiple of 40 and shows the colour itself, unscaled,
    at every step 20 beyond one. *)
Theorem pulse_trough_and_peak (self : NeoPixelRing) (s : Z) (rgb : RGBColor)
  (Hrange : rgb_in_range rgb) :
  (s mod 40 = 0 ->
   _pulse_frame self s rgb = Ok (replicate (Z.to_nat self.(_pixel_count)) (0, 0, 0)))
  /\ (s mod 40 = 20 ->
      _pulse_frame self s rgb = Ok (replicate (Z.to_nat self.(_pixel_count)) rgb)).
Proof.
  destruct rgb as [[r g] b]. destruct Hrange as (Hr & Hg & Hb); cbn [fst snd] in *.
  destruct (pulse_channel_facts r s Hr) as (vr & _ & Er & _ & _ & _ & Zr & Pr).
  destruct (pulse_channel_facts g s Hg) as (vg & _ & Eg & _ & _ & _ & Zg & Pg).
  destruct (pulse_channel_facts b s Hb) as (vb & _ & Eb & _ & _ & _ & Zb & Pb).
  unfold _pulse_frame. rewrite scale_color_channels, Er, Eg, Eb. cbn [rbind].
  split; intros E.
  - now rewrite (Zr E), (Zg E), (Zb E).
  - now rewrite (Pr E), (Pg E), (Pb E).
Qed.

Lemma pulse_trough_and_peak_witness :
  (40 mod 40 = 0 ->
   _pulse_frame (init 12 Float.zero) 40 (0, 128, 255) = Ok (replicate 12 (0, 0, 0)))
  /\ (40 mod 40 = 20 ->
      _pulse_frame (init 12 Float.zero) 40 (0, 128, 255)
      = Ok (replicate 12 (0, 128, 255))).
Proof.
  apply (pulse_trough_and_peak (init 12 Float.zero) 40 (0, 128, 255)).
  unfold rgb_in_range, channel_ok; cbn; lia.
Defined.

(** For a colour with channels in [[0, 255]] the pulse is a ramp: from
    one step to the next no channel gets darker during the first 20 steps
    of a cycle and none gets brighter during the last 20. *)
Theorem pulse_ramp (s : Z) (rgb : RGBColor) (Hrange : rgb_in_range rgb) :
  exists a b : RGBColor,
    _scale_color rgb (pulse_level s) = Ok a
    /\ _scale_color rgb (pulse_level (s + 1)) = Ok b
    /\ (if s mod 40 <? 20 then rgb_le a b else rgb_le b a).
Proof.
  destruct rgb as [[r g] b]. destruct Hrange as (Hr & Hg & Hb); cbn [fst snd] in *.
  destruct (pulse_channel_facts r s Hr) as (vr & wr & Er & Fr & _ & Mr & _).
  destruct (pulse_channel_facts g s Hg) as (vg & wg & Eg & Fg & _ & Mg & _).
  destruct (pulse_channel_facts b s Hb) as (vb & wb & Eb & Fb & _ & Mb & _).
  exists (vr, vg, vb), (wr, wg, wb).
  rewrite !scale_color_channels, Er, Eg, Eb, Fr, Fg, Fb. cbn [rbind].
  do 2 (split; [ reflexivity | ]).
  unfold rgb_le; cbn [fst snd]. destruct (s mod 40 <? 20); auto.
Qed.

Lemma pulse_ramp_witness :
  exists a b : RGBColor,
    _scale_color (0, 128, 255) (pulse_level 27) = Ok a
    /\ _scale_color (0, 128, 255) (pulse_level (27 + 1)) = Ok b
    /\ rgb_le b a.
Proof.
  apply (pulse_ramp 27 (0, 128, 255)).
  unfold rgb_in_range, channel_ok; cbn; lia.
Defined.

(** ** What a history keeps *)

Lemma apply_colors_config (self : NeoPixelRing) (colors : list RGBColor) :
  _pixel_count (_apply_colors self colors).1 = _pixel_count self
  /\ _palette (_apply_colors self colors).1 = _palette self
  /\ _effect_thread (_apply_colors self colors).1 = _effect_thread self.
Proof.
  unfold _apply_colors.
  destruct (write_colors _ 0 colors _) as [px [ e | ]]; cbn; auto.
Qed.

Lemma thread_step_config (self : NeoPixelRing) :
  _pixel_count (thread_step self) = _pixel_count self
  /\ _palette (thread_step self) = _palette self.
Proof.
  unfold thread_step.
  destruct (_effect_thread self) as [ t | ]; [ | auto ].
  destruct (pc t); auto.
  - destruct (_stop_event self); [ auto | ].
    destruct (call_generator _ self _) as [ colors | e ]; [ | auto ].
    destruct (apply_colors_config self colors) as (Hc & Hp & _).
    destruct (_apply_colors self colors) as [s' [ e | ]]; cbn [fst] in *.
    + cbn. auto.
    + destruct (elapsed t _); cbn; auto.
  - destruct (_stop_event self); auto.
  - destruct (_stop_event self); cbn [negb]; [ auto | ].
    destruct (apply_colors_config self (py_repeat (0, 0, 0) (_pixel_count self)))
      as (Hc & Hp & _).
    cbn. auto.
Qed.

Lemma thread_step_responsive (self : NeoPixelRing) :
  responsive self -> responsive (thread_step self).
Proof.
  unfold responsive, thread_step.
  destruct (_effect_thread self) as [ t | ] eqn:Ht; [ | now rewrite Ht ].
  intros Hresp.
  destruct (pc t) eqn:Hpc; try (rewrite Ht, Hpc; discriminate).
  - discriminate.
  - destruct (_stop_event self); [ discriminate | ].
    destruct (call_generator _ self _) as [ colors | e ]; [ | discriminate ].
    destruct (_apply_colors self colors) as [s' [ e | ]]; [ discriminate | ].
    destruct (elapsed t _); discriminate.
  - destruct (_stop_event self); discriminate.
  - destruct (_stop_event self); discriminate.
  - contradiction.
Qed.

(** A call made on an engine whose thread is not blocked comes back. *)
Lemma stop_effect_settled (self : NeoPixelRing) :
  settled self ->
  comes_back (fun s => settled s /\ _effect_thread s = None
                       /\ _pixel_count s = _pixel_count self
                       /\ _palette s = _palette self) (_stop_effect self).
Proof.
  intros [[Hwf Hstop] Hresp].
  destruct (stop_effect_returns self Hresp) as (st & Hret & Hst).
  rewrite Hret. cbn [comes_back].
  assert (Est : st = false).
  { destruct (_effect_thread self) eqn:Ht; [ apply Hst; eauto | ].
    unfold _stop_effect in Hret. rewrite Ht in Hret. injection Hret as Hret.
    apply (f_equal _stop_event) in Hret. cbn in Hret. congruence. }
  subst st. repeat split; try reflexivity. exact Hwf.
Qed.

Lemma comes_back_and_then (P Q : NeoPixelRing -> Prop) (o : outcome)
      (k : NeoPixelRing -> outcome) :
  comes_back P o -> (forall s, P s -> comes_back Q (k s)) ->
  (forall s, P s -> Q s) ->
  comes_back Q (and_then o k).
Proof. destruct o; cbn; auto. Qed.

Lemma fill_settled (self : NeoPixelRing) (c : RGBColor) :
  settled self -> _effect_thread self = None ->
  comes_back (fun s => settled s /\ _pixel_count s = _pixel_count self
                       /\ _palette s = _palette self)
             (applied (_fill self c)).
Proof.
  intros [[Hwf Hstop] Hresp] Hth.
  rewrite (fill_full self c Hwf). cbn [applied comes_back].
  repeat split; try reflexivity.
  - unfold wf. cbn. apply length_replicate.
  - exact Hstop.
  - unfold responsive. cbn. now rewrite Hth.
Qed.

Lemma start_effect_settled (self : NeoPixelRing) (g : FrameGen) (i : float)
      (d : option float) :
  settled self ->
  comes_back (fun s => settled s /\ _pixel_count s = _pixel_count self
                       /\ _palette s = _palette self)
             (_start_effect self g i d).
Proof.
  intros [[Hwf Hstop] Hresp].
  rewrite (start_effect_returns self g i d Hresp). cbn [comes_back].
  repeat split; try reflexivity; try exact Hwf.
  unfold responsive. cbn. discriminate.
Qed.

Lemma stop_then_settled (self : NeoPixelRing) (k : NeoPixelRing -> outcome) :
  settled self ->
  (forall s, settled s -> _effect_thread s = None ->
             comes_back (fun s' => settled s' /\ _pixel_count s' = _pixel_count s
                                   /\ _palette s' = _palette s) (k s)) ->
  comes_back (fun s' => settled s' /\ _pixel_count s' = _pixel_count self
                        /\ _palette s' = _palette self)
             (and_then (_stop_effect self) k).
Proof.
  intros Hs Hk. pose proof (stop_effect_settled self Hs) as H.
  destruct (_stop_effect self) as [ s | e s | ]; cbn in *; try contradiction.
  - destruct H as (Hs1 & Hth & Hc & Hp).
    specialize (Hk s Hs1 Hth).
    destruct (k s) as [ s2 | e s2 | ]; cbn in *; try contradiction;
      destruct Hk as (Hs2 & Hc2 & Hp2);
      (split; [ exact Hs2 | split; congruence ]).
  - destruct H as (Hs1 & _ & Hc & Hp). auto.
Qed.

(** Every event but a stall, on a settled engine, comes back and leaves
    it settled, with the same pixel count and, unless the event is a
    palette call, the same palette. *)
Lemma perform_settled (ev : event) (self : NeoPixelRing) :
  settled self -> is_stall ev = false ->
  comes_back (fun s => settled s /\ _pixel_count s = _pixel_count self
                       /\ (is_palette_call ev = false -> _palette s = _palette self))
             (perform ev self).
Proof.
  intros Hs Hev.
  assert (Hweak : forall o,
            comes_back (fun s => settled s /\ _pixel_count s = _pixel_count self
                                 /\ _palette s = _palette self) o ->
            comes_back (fun s => settled s /\ _pixel_count s = _pixel_count self
                                 /\ (is_palette_call ev = false ->
                                     _palette s = _palette self)) o).
  { intros [ s | e s | ]; cbn; tauto. }
  destruct ev as [ p q | d | d | | d | c | c d | | | t | ];
    cbn [perform]; try discriminate.
  - unfold set_color_palette.
    destruct (_ensure_rgb p); [ destruct (_ensure_rgb q) | ]; cbn;
      repeat split; try apply Hs; try reflexivity; discriminate.
  - apply Hweak. now apply start_effect_settled.
  - apply Hweak. now apply start_effect_settled.
  - apply Hweak. apply stop_then_settled; [ exact Hs | ].
    intros s Hs1 Hth. now apply fill_settled.
  - apply Hweak. now apply start_effect_settled.
  - apply Hweak. apply stop_then_settled; [ exact Hs | ].
    intros s Hs1 Hth. destruct (_ensure_rgb c); [ now apply fill_settled | ].
    cbn. auto.
  - apply Hweak. unfold pulse.
    destruct (_ensure_rgb c); [ now apply start_effect_settled | ]. cbn. auto.
  - apply Hweak. apply stop_then_settled; [ exact Hs | ].
    intros s Hs1 Hth. now apply fill_settled.
  - cbn. destruct Hs as [[Hwf Hstop] Hresp].
    destruct (thread_step_config self) as [Hc Hp].
    repeat split; auto using thread_step_wf, thread_step_responsive.
    now rewrite thread_step_stop_event.
  - cbn. destruct Hs as [[Hwf Hstop] Hresp]. repeat split; auto.
Qed.

Lemma after_settled (history : list event) :
  forall self : NeoPixelRing,
    settled self -> forallb (fun ev => negb (is_stall ev)) history = true ->
    exists self' : NeoPixelRing,
      after history self = Some self'
      /\ settled self'
      /\ _pixel_count self' = _pixel_count self
      /\ (forallb (fun ev => negb (is_palette_call ev)) history = true ->
          _palette self' = _palette self).
Proof.
  induction history as [ | ev rest IH ]; intros self Hs Hns.
  - exists self. cbn. auto.
  - cbn [forallb] in Hns. apply andb_prop in Hns as [Hev Hrest].
    apply negb_true_iff in Hev.
    pose proof (perform_settled ev self Hs Hev) as Hp.
    cbn [after].
    destruct (perform ev self) as [ s1 | e s1 | ]; cbn in Hp; [ | | contradiction ];
      destruct Hp as (Hs1 & Hc1 & Hp1);
      destruct (IH s1 Hs1 Hrest) as (s2 & Hafter & Hs2 & Hc2 & Hp2);
      exists s2; (split; [ exact Hafter | ]); (split; [ exact Hs2 | ]);
      (split; [ congruence | ]);
      intros Hnp; cbn [forallb] in Hnp; apply andb_prop in Hnp as [Hn1 Hn2];
      apply negb_true_iff in Hn1; rewrite (Hp2 Hn2); auto.
Qed.

(** As long as the effect thread never gets stuck, no call of a history
    hangs, whatever is called, in whatever order and with whatever
    arguments; the buffer keeps its [pixel_count] slots, the stop event is
    clear between calls, the pixel count never changes, and the palette
    changes through [set_color_palette] only. *)
Theorem history_without_stall (history : list event) (self : NeoPixelRing)
  (Hs : settled self) (Hns : forallb (fun ev => negb (is_stall ev)) history = true) :
  exists self' : NeoPixelRing,
    after history self = Some self'
    /\ settled self'
    /\ _pixel_count self' = _pixel_count self
    /\ (forallb (fun ev => negb (is_palette_call ev)) history = true ->
        _palette self' = _palette self).
Proof. exact (after_settled history self Hs Hns). Qed.

Lemma history_without_stall_witness :
  exists self' : NeoPixelRing,
    after [CallWakeup None; ThreadMove; ThreadMove; CallMono (CSeq [IInt 1]);
           CallPulse (CInt 255) Float.one; ThreadMove; CallOff]
          (init 12 Float.zero) = Some self'
    /\ settled self'
    /\ _pixel_count self' = 12
    /\ (forallb (fun ev => negb (is_palette_call ev))
          [CallWakeup None; ThreadMove; ThreadMove; CallMono (CSeq [IInt 1]);
           CallPulse (CInt 255) Float.one; ThreadMove; CallOff] = true ->
        _palette self' = _palette (init 12 Float.zero)).
Proof.
  apply (history_without_stall
           [CallWakeup None; ThreadMove; ThreadMove; CallMono (CSeq [IInt 1]);
            CallPulse (CInt 255) Float.one; ThreadMove; CallOff]
           (init 12 Float.zero)).
  - split; [ apply init_steady | exact I ].
  - reflexivity.
Defined.

(** ** The event handler *)

Lemma fill_call_settled (self : NeoPixelRing) (c : RGBColor) :
  settled self ->
  exists self' : NeoPixelRing,
    and_then (_stop_effect self) (fun s => applied (_fill s c)) = Returns self'
    /\ settled self'
    /\ zeroed self' = (replicate (Z.to_nat self.(_pixel_count)) c
                       = replicate (Z.to_nat self.(_pixel_count)) (0, 0, 0))
    /\ _pixels self' = replicate (Z.to_nat self.(_pixel_count)) c
    /\ _effect_thread self' = None
    /\ _palette self' = _palette self
    /\ _pixel_count self' = _pixel_count self.
Proof.
  intros [[Hwf Hstop] Hresp].
  destruct (stop_then_fill self c Hwf Hresp)
    as (s' & Hret & Hpx & _ & Hth & Hpal & Hcnt & Hev).
  exists s'. split; [ exact Hret | ].
  split.
  { split; [ split | ].
    - unfold wf. now rewrite Hpx, Hcnt, length_replicate.
    - now apply Hev.
    - unfold responsive. now rewrite Hth. }
  split; [ unfold zeroed; now rewrite Hpx, Hcnt | auto ].
Qed.

Lemma start_call_settled (self : NeoPixelRing) (g : FrameGen) (i : float)
      (d : option float) :
  settled self ->
  exists self' : NeoPixelRing,
    _start_effect self g i d = Returns self'
    /\ settled self'
    /\ _effect_thread self' = Some (mkThread g i d Float.zero 0 AtStart)
    /\ _pixels self' = _pixels self
    /\ _palette self' = _palette self
    /\ _pixel_count self' = _pixel_count self.
Proof.
  intros [[Hwf Hstop] Hresp].
  rewrite (start_effect_returns self g i d Hresp).
  eexists. split; [ reflexivity | ].
  repeat split; try exact Hwf. unfold responsive. cbn. discriminate.
Qed.

Lemma speak_as_fill (self : NeoPixelRing) :
  responsive self ->
  speak self
  = and_then (_stop_effect self)
             (fun s => applied (_fill s self.(_palette).(primary))).
Proof.
  intros Hresp. unfold speak.
  destruct (stop_effect_returns self Hresp) as (st & -> & _).
  destruct self; reflexivity.
Qed.

(** The handler does not fail on an engine whose thread is not blocked
    and whose primary colour, the one palette colour a handler call writes
    itself, has its channels in [[0, 255]]: whatever the type of the
    event, the call on the ring returns, so the handler returns, and the
    engine is left settled with its pixel count and palette. *)
Theorem handle_event_returns (types : EventTypes) (ring : NeoPixelRing)
  (event_type : String.string) (Hs : settled ring)
  (Hrange : rgb_in_range ring.(_palette).(primary)) :
  exists ring' : NeoPixelRing,
    handle_event types ring event_type = Returns ring'
    /\ settled ring'
    /\ _pixel_count ring' = _pixel_count ring
    /\ _palette ring' = _palette ring.
Proof.
  clear Hrange.
  assert (Hfill : forall c, exists ring',
             and_then (_stop_effect ring) (fun s => applied (_fill s c)) = Returns ring'
             /\ settled ring' /\ _pixel_count ring' = _pixel_count ring
             /\ _palette ring' = _palette ring).
  { intros c. destruct (fill_call_settled ring c Hs)
      as (r & H1 & H2 & _ & _ & _ & H3 & H4). eauto. }
  assert (Hstart : forall g i d, exists ring',
             _start_effect ring g i d = Returns ring'
             /\ settled ring' /\ _pixel_count ring' = _pixel_count ring
             /\ _palette ring' = _palette ring).
  { intros g i d. destruct (start_call_settled ring g i d Hs)
      as (r & H1 & H2 & _ & _ & H3 & H4). eauto. }
  unfold handle_event.
  repeat match goal with
         | |- context [ if String.eqb ?a ?b then _ else _ ] =>
             destruct (String.eqb a b)
         end;
    try apply Hstart; try apply Hfill;
    try (rewrite (speak_as_fill ring (proj2 Hs)); apply Hfill).
  exists ring. auto.
Qed.

Lemma handle_event_returns_witness :
  exists ring' : NeoPixelRing,
    handle_event wyoming_types thinking_ring "played"%string = Returns ring'
    /\ settled ring'
    /\ _pixel_count ring' = 12
    /\ _palette ring' = _palette thinking_ring.
Proof.
  apply (handle_event_returns wyoming_types thinking_ring "played"%string).
  - split; [ split | ]; [ vm_compute; reflexivity | reflexivity
                        | vm_compute; discriminate ].
  - vm_compute; repeat split; discriminate.
Defined.

Ltac split_distinct H :=
  cbn [distinct type_list forallb] in H;
  repeat match goal with
         | H' : _ && _ = true |- _ => apply andb_prop in H'; destruct H'
         end;
  repeat match goal with
         | H' : negb _ = true |- _ => apply negb_true_iff in H'
         end.

Ltac pick_branch :=
  unfold handle_event;
  repeat match goal with
         | H' : String.eqb ?a ?b = false |- context [ String.eqb ?a ?b ] =>
             rewrite H'
         end;
  rewrite String.eqb_refl.

(** What each event does to a settled ring, the eight type strings being
    pairwise different: a detection starts the wakeup effect for 2.0 s, a
    voice stop the spin effect for 1.5 s, a satellite connection the think
    effect for 2.0 s, the call writing no frame when no effect was running
    before it; voice start and streaming start leave the ring filled with
    the primary colour when its channels are in [[0, 255]], streaming stop
    and played leave it all off, a satellite disconnection leaves it
    filled with [(255, 0, 0)], each with no effect running; an event of
    any other type leaves the engine untouched. *)
Theorem handle_event_display (types : EventTypes) (ring : NeoPixelRing)
  (Hd : distinct (type_list types) = true) (Hs : settled ring) :
  let n := Z.to_nat ring.(_pixel_count) in
  let started (et : String.string) (g : FrameGen) (i d : float) :=
    exists r, handle_event types ring et = Returns r
              /\ _effect_thread r = Some (mkThread g i (Some d) Float.zero 0 AtStart)
              /\ (_effect_thread ring = None ->
                  _pixels r = _pixels ring /\ flushed r = flushed ring) in
  let filled (et : String.string) (c : RGBColor) :=
    exists r, handle_event types ring et = Returns r
              /\ _pixels r = replicate n c /\ _effect_thread r = None in
  started types.(detection_type) WakeupFrame (Float.lit 8 100) (Float.of_Z 2)
  /\ (rgb_in_range ring.(_palette).(primary) ->
      filled types.(voice_started_type) ring.(_palette).(primary))
  /\ started types.(voice_stopped_type) SpinFrame (Float.lit 6 100) (Float.lit 3 2)
  /\ (rgb_in_range ring.(_palette).(primary) ->
      filled types.(streaming_started_type) ring.(_palette).(primary))
  /\ filled types.(streaming_stopped_type) (0, 0, 0)
  /\ started types.(satellite_connected_type) ThinkFrame (Float.lit 12 100) (Float.of_Z 2)
  /\ filled types.(played_type) (0, 0, 0)
  /\ filled types.(satellite_disconnected_type) (255, 0, 0)
  /\ (forall et : String.string,
        forallb (fun x => negb (String.eqb et x)) (type_list types) = true ->
        handle_event types ring et = Returns ring).
Proof.
  intros n started filled.
  assert (Hstart : forall g i d, exists r,
             _start_effect ring g i (Some d) = Returns r
             /\ _effect_thread r = Some (mkThread g i (Some d) Float.zero 0 AtStart)
             /\ (_effect_thread ring = None ->
                 _pixels r = _pixels ring /\ flushed r = flushed ring)).
  { intros g i d. rewrite (start_effect_returns ring g i (Some d) (proj2 Hs)).
    eexists. repeat split. }
  assert (Hfill : forall c, exists r,
             and_then (_stop_effect ring) (fun s => applied (_fill s c)) = Returns r
             /\ _pixels r = replicate n c /\ _effect_thread r = None).
  { intros c. destruct (fill_call_settled ring c Hs)
      as (r & H1 & _ & _ & H2 & H3 & _). eauto. }
  split_distinct Hd.
  subst started filled. cbn beta.
  split; [ pick_branch; apply Hstart | ].
  split; [ intros _; pick_branch; rewrite (speak_as_fill ring (proj2 Hs)); apply Hfill | ].
  split; [ pick_branch; apply Hstart | ].
  split; [ intros _; pick_branch; rewrite (speak_as_fill ring (proj2 Hs)); apply Hfill | ].
  split; [ pick_branch; apply Hfill | ].
  split; [ pick_branch; apply Hstart | ].
  split; [ pick_branch; apply Hfill | ].
  split; [ pick_branch; apply Hfill | ].
  intros et Hu. cbn [type_list forallb] in Hu.
  repeat match goal with
         | H' : _ && _ = true |- _ => apply andb_prop in H'; destruct H'
         end.
  repeat match goal with
         | H' : negb _ = true |- _ => apply negb_true_iff in H'
         end.
  unfold handle_event.
  repeat match goal with
         | H' : String.eqb ?a ?b = false |- context [ String.eqb ?a ?b ] =>
             rewrite H'
         end.
  reflexivity.
Qed.

Lemma handle_event_display_witness :
  (exists r, handle_event wyoming_types thinking_ring "voice-started"%string = Returns r
             /\ _pixels r = replicate 12 (0, 128, 255) /\ _effect_thread r = None)
  /\ (exists r, handle_event wyoming_types thinking_ring "played"%string = Returns r
                /\ _pixels r = replicate 12 (0, 0, 0) /\ _effect_thread r = None)
  /\ (exists r, handle_event wyoming_types thinking_ring
                  "satellite-disconnected"%string = Returns r
                /\ _pixels r = replicate 12 (255, 0, 0) /\ _effect_thread r = None)
  /\ (forall et : String.string,
        forallb (fun x => negb (String.eqb et x)) (type_list wyoming_types) = true ->
        handle_event wyoming_types thinking_ring et = Returns thinking_ring).
Proof.
  assert (Hs : settled thinking_ring).
  { split; [ split | ]; [ vm_compute; reflexivity | reflexivity
                        | vm_compute; discriminate ]. }
  assert (Hrange : rgb_in_range thinking_ring.(_palette).(primary)).
  { vm_compute; repeat split; discriminate. }
  destruct (handle_event_display wyoming_types thinking_ring eq_refl Hs)
    as (_ & Hvoice & _ & _ & _ & _ & Hplayed & Hdisc & Hother).
  exact (conj (Hvoice Hrange) (conj Hplayed (conj Hdisc Hother))).
Defined.

(** ** The boot sequence of the service *)

Lemma after_app (l1 l2 : list event) :
  forall self : NeoPixelRing,
    after (l1 ++ l2) self
    = match after l1 self with
      | Some s1 => after l2 s1
      | None => None
      end.
Proof.
  induction l1 as [ | ev rest IH ]; intros self; cbn; [ reflexivity | ].
  destruct (perform ev self); auto.
Qed.

Lemma background_events (l : list event) :
  forallb is_background l = true ->
  forallb (fun ev => negb (is_stall ev)) l = true
  /\ forallb (fun ev => negb (is_palette_call ev)) l = true.
Proof.
  induction l as [ | ev rest IH ]; cbn; [ auto | ].
  intros H. apply andb_prop in H as [Hev Hrest].
  destruct (IH Hrest) as [-> ->].
  destruct ev; cbn in *; try discriminate; auto.
Qed.

(** The boot sequence of [main] always completes, whatever the two parsed
    colours, the pixel count, and the progress the pulse thread makes
    while [main] sleeps: the ring ends all off with no effect running, its
    palette holding the channels of the two colours. *)
Theorem boot_sequence_ends_dark (pixel_count : Z) (now : float) (primary secondary : Z)
  (meanwhile : list event) (Hbg : forallb is_background meanwhile = true) :
  exists ring : NeoPixelRing,
    boot_sequence pixel_count now primary secondary meanwhile = Some ring
    /\ zeroed ring
    /\ _effect_thread ring = None
    /\ _palette ring = mkPalette (_int_to_rgb primary) (_int_to_rgb secondary)
    /\ _pixel_count ring = pixel_count
    /\ settled ring.
Proof.
  destruct (background_events meanwhile Hbg) as [Hns Hnp].
  unfold boot_sequence.
  set (s0 := set_palette (mkPalette (_int_to_rgb primary) (_int_to_rgb secondary))
                         (init pixel_count now)).
  assert (Hs0 : settled s0).
  { split; [ apply (init_steady pixel_count now) | exact I ]. }
  change (CallSetColorPalette (CInt primary) (CInt secondary)
            :: CallPulse (CInt primary) Float.one :: meanwhile ++ [CallOff])
    with ([CallSetColorPalette (CInt primary) (CInt secondary)]
            ++ (CallPulse (CInt primary) Float.one :: meanwhile) ++ [CallOff]).
  rewrite after_app.
  change (after [CallSetColorPalette (CInt primary) (CInt secondary)]
                (init pixel_count now)) with (Some s0).
  cbv beta iota. rewrite after_app.
  destruct (after_settled (CallPulse (CInt primary) Float.one :: meanwhile) s0 Hs0)
    as (s1 & -> & Hs1 & Hc1 & Hp1).
  { cbn [forallb is_stall negb andb]. exact Hns. }
  cbn [after perform]. unfold off.
  destruct (fill_call_settled s1 (0, 0, 0) Hs1)
    as (s2 & -> & Hs2 & _ & Hpx & Hth & Hpal & Hcnt).
  exists s2. split; [ reflexivity | ].
  split; [ unfold zeroed; now rewrite Hpx, Hcnt | ].
  split; [ exact Hth | ].
  split; [ rewrite Hpal, Hp1; [ reflexivity | exact Hnp ] | ].
  split; [ now rewrite Hcnt, Hc1 | exact Hs2 ].
Qed.

Lemma boot_sequence_ends_dark_witness :
  exists ring : NeoPixelRing,
    boot_sequence 12 Float.zero 0x0080FF 0x007A37
      [ThreadMove; ThreadMove; ClockReads Float.half; ThreadMove; ThreadMove]
    = Some ring
    /\ zeroed ring
    /\ _effect_thread ring = None
    /\ _palette ring = mkPalette (_int_to_rgb 0x0080FF) (_int_to_rgb 0x007A37)
    /\ _pixel_count ring = 12
    /\ settled ring.
Proof.
  apply (boot_sequence_ends_dark 12 Float.zero 0x0080FF 0x007A37). reflexivity.
Defined.

(** ** Colours on the command line *)

Lemma hex_digit_facts (c : Ascii.ascii) (d : Z) :
  hex_digit c = Some d -> graphic c = true /\ 0 <= d <= 15.
Proof.
  unfold hex_digit, graphic.
  set (n := Z.of_N (Ascii.N_of_ascii c)).
  destruct (Z.leb_spec 48 n), (Z.leb_spec n 57), (Z.leb_spec 97 n),
    (Z.leb_spec n 102), (Z.leb_spec 65 n), (Z.leb_spec n 70);
    cbn [andb]; intros Hsome; try discriminate; injection Hsome as <-;
    (split; [ apply andb_true_intro; split; apply Z.leb_le; lia | lia ]).
Qed.

Lemma hex_digits_last (s : String.string) :
  forall (acc : Z) (c : Ascii.ascii) (v : Z),
    hex_value_from acc (String.String c s) = Some v ->
    exists z, last_char (String.String c s) = Some z /\ graphic z = true.
Proof.
  induction s as [ | b rest IH ]; intros acc c v H; cbn [hex_value_from] in H.
  - destruct (hex_digit c) as [ d | ] eqn:Hd; [ | discriminate ].
    exists c. split; [ reflexivity | exact (proj1 (hex_digit_facts c d Hd)) ].
  - destruct (hex_digit c) as [ d | ]; [ | discriminate ].
    destruct (IH _ b v H) as (z & Hz & Hg). exists z. auto.
Qed.

Lemma hex_visible (ds : String.string) (v : Z) :
  hex_value ds = Some v -> visible_ends ds /\ String.prefix "#"%string ds = false.
Proof.
  destruct ds as [ | c rest ]; [ discriminate | ]. cbn [hex_value]. intros H.
  pose proof (hex_digits_last rest 0 c v H) as Hlast.
  cbn [hex_value_from] in H.
  destruct (hex_digit c) as [ d | ] eqn:Hd; [ | discriminate ].
  split.
  - split; [ exact (proj1 (hex_digit_facts c d Hd)) | exact Hlast ].
  - cbn [String.prefix].
    destruct (Ascii.ascii_dec "#"%char c) as [ <- | ]; [ discriminate | reflexivity ].
Qed.

Lemma visible_cons (c : Ascii.ascii) (t : String.string) :
  graphic c = true -> visible_ends t -> visible_ends (String.String c t).
Proof.
  intros Hc Ht. destruct t as [ | b rest ]; [ contradiction | ].
  destruct Ht as [_ Hlast]. split; [ exact Hc | exact Hlast ].
Qed.

Lemma parse_color_forms (strip : String.string -> String.string)
      (int16 : String.string -> result Z) (ds : String.string) (v : Z) :
  builtins_ok strip int16 -> hex_value ds = Some v ->
  _parse_color strip int16 ds = Ok v
  /\ _parse_color strip int16 (String.append "#"%string ds) = Ok v
  /\ _parse_color strip int16 (String.append "0x"%string ds) = Ok v
  /\ _parse_color strip int16 (String.append "#0x"%string ds) = Ok v.
Proof.
  intros [Hstrip Hint] Hv.
  destruct (hex_visible ds v Hv) as [Hvis Hhash].
  destruct (Hint ds v Hv) as [Hplain Hprefixed].
  set (prefixed := String.append "0x"%string ds) in *.
  assert (Hvis0x : visible_ends prefixed).
  { subst prefixed. cbn [String.append]. now repeat apply visible_cons. }
  assert (Hp0 : String.prefix "#"%string prefixed = false) by reflexivity.
  change (String.append "#"%string ds) with (String.String "#"%char ds).
  change (String.append "#0x"%string ds) with (String.String "#"%char prefixed).
  assert (Hp1 : forall t, String.prefix "#"%string (String.String "#"%char t) = true)
    by (intros [ | b t ]; reflexivity).
  unfold _parse_color. repeat split.
  - rewrite (Hstrip ds Hvis), Hhash. now destruct (String.prefix "0x"%string ds).
  - rewrite (Hstrip _ (visible_cons "#"%char ds eq_refl Hvis)), Hp1.
    cbn [str_tail]. now destruct (String.prefix "0x"%string ds).
  - rewrite (Hstrip _ Hvis0x), Hp0.
    now destruct (String.prefix "0x"%string prefixed).
  - rewrite (Hstrip _ (visible_cons "#"%char _ eq_refl Hvis0x)), Hp1.
    cbn [str_tail]. now destruct (String.prefix "0x"%string prefixed).
Qed.

(** The four spellings of a colour agree: a non-empty string of
    hexadecimal digits is parsed to the number it denotes whether it is
    given bare, after [#], after [0x] or after [#0x]. *)
Theorem parse_color_spellings (strip : String.string -> String.string)
  (int16 : String.string -> result Z) (ds : String.string) (v : Z)
  (Hb : builtins_ok strip int16) (Hv : hex_value ds = Some v) :
  _parse_color strip int16 ds = Ok v
  /\ _parse_color strip int16 (String.append "#"%string ds) = Ok v
  /\ _parse_color strip int16 (String.append "0x"%string ds) = Ok v
  /\ _parse_color strip int16 (String.append "#0x"%string ds) = Ok v.
Proof. exact (parse_color_forms strip int16 ds v Hb Hv). Qed.

Lemma sample_builtins_ok : builtins_ok sample_strip sample_int16.
Proof.
  split; [ reflexivity | ].
  intros ds v Hv. unfold sample_int16. split.
  - destruct ds as [ | a [ | b rest ] ]; cbn [String.prefix];
      try (now rewrite Hv);
      try (destruct (Ascii.ascii_dec "0"%char a); now rewrite Hv).
    destruct (Ascii.ascii_dec "0"%char a) as [ <- | ]; [ | now rewrite Hv ].
    destruct (Ascii.ascii_dec "x"%char b) as [ <- | ]; [ | now rewrite Hv ].
    discriminate.
  - replace (String.prefix "0x"%string (String.append "0x"%string ds)) with true
      by (destruct ds; reflexivity).
    change (str_tail (str_tail (String.append "0x"%string ds))) with ds.
    now rewrite Hv.
Qed.

Lemma parse_color_spellings_witness :
  _parse_color sample_strip sample_int16 "0080FF"%string = Ok 0x0080FF
  /\ _parse_color sample_strip sample_int16 "#0080FF"%string = Ok 0x0080FF
  /\ _parse_color sample_strip sample_int16 "0x0080FF"%string = Ok 0x0080FF
  /\ _parse_color sample_strip sample_int16 "#0x0080FF"%string = Ok 0x0080FF.
Proof.
  apply (parse_color_spellings sample_strip sample_int16 "0080FF"%string 0x0080FF).
  - exact sample_builtins_ok.
  - reflexivity.
Defined.

(** A colour given as [#RRGGBB] reaches the palette as the three numbers
    its digit pairs denote: parsed and then normalised, the six digits
    [c1 .. c6] give [(16 * v1 + v2, 16 * v3 + v4, 16 * v5 + v6)]. *)
Theorem hash_colour_channels (strip : String.string -> String.string)
  (int16 : String.string -> result Z)
  (c1 c2 c3 c4 c5 c6 : Ascii.ascii) (v1 v2 v3 v4 v5 v6 : Z)
  (Hb : builtins_ok strip int16)
  (H1 : hex_digit c1 = Some v1) (H2 : hex_digit c2 = Some v2)
  (H3 : hex_digit c3 = Some v3) (H4 : hex_digit c4 = Some v4)
  (H5 : hex_digit c5 = Some v5) (H6 : hex_digit c6 = Some v6) :
  let digits :=
    String.String c1 (String.String c2 (String.String c3 (String.String c4
      (String.String c5 (String.String c6 String.EmptyString))))) in
  rbind (_parse_color strip int16 (String.String "#"%char digits))
        (fun v => _ensure_rgb (CInt v))
  = Ok (16 * v1 + v2, 16 * v3 + v4, 16 * v5 + v6).
Proof.
  intros digits.
  set (v := (16 * v1 + v2) * 65536 + (16 * v3 + v4) * 256 + (16 * v5 + v6)).
  assert (Hv : hex_value digits = Some v).
  { subst digits. cbn [hex_value hex_value_from].
    rewrite H1, H2, H3, H4, H5, H6. f_equal. subst v. lia. }
  destruct (parse_color_forms strip int16 digits v Hb Hv) as (_ & Hhash & _).
  change (String.append "#"%string digits) with (String.String "#"%char digits) in Hhash.
  rewrite Hhash. cbn [rbind _ensure_rgb]. f_equal.
  pose proof (hex_digit_facts _ _ H1) as [_ R1].
  pose proof (hex_digit_facts _ _ H2) as [_ R2].
  pose proof (hex_digit_facts _ _ H3) as [_ R3].
  pose proof (hex_digit_facts _ _ H4) as [_ R4].
  pose proof (hex_digit_facts _ _ H5) as [_ R5].
  pose proof (hex_digit_facts _ _ H6) as [_ R6].
  apply unpack_channels; unfold channel_ok; lia.
Qed.

Lemma hash_colour_channels_witness :
  rbind (_parse_color sample_strip sample_int16 "#007A37"%string)
        (fun v => _ensure_rgb (CInt v))
  = Ok (16 * 0 + 0, 16 * 7 + 10, 16 * 3 + 7).
Proof.
  apply (hash_colour_channels sample_strip sample_int16
           "0"%char "0"%char "7"%char "A"%char "3"%char "7"%char
           0 0 7 10 3 7 sample_builtins_ok); reflexivity.
Defined.

(** ** The think effect *)

(** The think frames are the rotations of one pattern: whenever the
    generator returns at steps [s] and 0, the pixel at index [i] of the
    frame of step [s] is the pixel at index [(i - s) mod pixel_count] of the
    frame of step 0. *)
Theorem think_frame_rotates (self : NeoPixelRing) (s i : Z)
  (frame frame0 : list RGBColor)
  (Hs : _think_frame self s = Ok frame) (H0 : _think_frame self 0 = Ok frame0)
  (Hi : 0 <= i < self.(_pixel_count)) :
  frame !! Z.to_nat i = frame0 !! Z.to_nat ((i - s) mod self.(_pixel_count)).
Proof.
  set (N := self.(_pixel_count)) in *.
  assert (HN : N <> 0) by lia.
  set (j := (i - s) mod N).
  assert (Hj : 0 <= j < N) by (apply Z.mod_pos_bound; lia).
  unfold _think_frame in Hs, H0. fold N in Hs, H0.
  rewrite (py_mod_ok s N HN) in Hs. rewrite (py_mod_ok 0 N HN) in H0.
  cbn [rbind] in Hs, H0.
  assert (Hri : py_range N !! Z.to_nat i = Some i).
  { unfold py_range. rewrite lookup_seqZ_lt by lia. f_equal. lia. }
  assert (Hrj : py_range N !! Z.to_nat j = Some j).
  { unfold py_range. rewrite lookup_seqZ_lt by lia. f_equal. lia. }
  destruct (collect_lookup _ _ _ Hs _ _ Hri) as (y & Hy & Ey).
  destruct (collect_lookup _ _ _ H0 _ _ Hrj) as (y0 & Hy0 & Ey0).
  rewrite Hy, Hy0. f_equal.
  rewrite (py_mod_ok _ N HN) in Ey. rewrite (py_mod_ok _ N HN) in Ey0.
  cbn [rbind] in Ey, Ey0.
  rewrite Zminus_mod_idemp_r in Ey. fold j in Ey.
  rewrite Z.mod_0_l, Z.sub_0_r, (Z.mod_small j N) in Ey0 by lia.
  congruence.
Qed.

Lemma think_frame_rotates_witness :
  [(0, 0, 0); (0, 0, 0); (0, 0, 0); (0, 61, 27); (0, 40, 18); (0, 20, 9)] !! Z.to_nat 4
  = [(0, 61, 27); (0, 40, 18); (0, 20, 9); (0, 0, 0); (0, 0, 0); (0, 0, 0)]
      !! Z.to_nat ((4 - 3) mod 6).
Proof.
  apply (think_frame_rotates (init 6 Float.zero) 3 4); [ | | cbn; lia ];
    vm_compute; reflexivity.
Defined.
